(** * AIF360 diabetes dataset loaders

    A shallow embedding of the two loaders of the diabetes dataset:

    - [aif360/sklearn/datasets/diabetes_dataset.py], function
      [fetch_diabetes]: read the table from the cache or from the remote
      URL, remap label tokens, the missing-value sentinel and the age
      buckets, and fill the missing entries of every object column with the
      column's mode;
    - [aif360/datasets/diabetes_dataset.py], class [DiabetesDataset]: read a
      local file, or print acquisition instructions and exit.

    The Python library functions the loaders call ([os.path], [pandas]) are
    modelled after their documented behaviour in the modules [Posixpath] and
    [Pandas]; file contents and numeric cells are kept abstract. *)

From Stdlib Require Import String Ascii.
From stdpp Require Import base list strings gmap sorting pretty.

Local Open Scope string_scope.

(** ** Python exceptions and results *)

Module Py.

(** The exception classes the two loaders can meet.  [OSError] stands for
    the whole [OSError] family ([IOError] is its alias; [FileNotFoundError],
    [FileExistsError] and [URLError] are subclasses), [ValueError] for the
    parser errors of pandas.  [SystemExit] derives from [BaseException]
    only. *)
Inductive exn : Type :=
| KeyError (key : Z)
| OSError (msg : string)
| ValueError (msg : string)
| SystemExit (code : Z).

Definition class_name (e : exn) : string :=
  match e with
  | KeyError _ => "KeyError"
  | OSError _ => "OSError"
  | ValueError _ => "ValueError"
  | SystemExit _ => "SystemExit"
  end.

(** [isinstance(e, Exception)]: what an [except Exception] clause of a
    caller would catch. *)
Definition is_Exception (e : exn) : bool :=
  match e with
  | SystemExit _ => false
  | _ => true
  end.

(** [isinstance(e, IOError)]. *)
Definition is_IOError (e : exn) : bool :=
  match e with
  | OSError _ => true
  | _ => false
  end.

(** [str(e)]. *)
Definition str (e : exn) : string :=
  match e with
  | KeyError key => pretty key
  | OSError m | ValueError m => m
  | SystemExit code => pretty code
  end.

Inductive result (A : Type) : Type :=
| Ok (a : A)
| Raise (e : exn).
Global Arguments Ok {A} a.
Global Arguments Raise {A} e.

Global Instance result_ret : MRet result := fun A a => Ok a.
Global Instance result_bind : MBind result := fun A B f r =>
  match r with
  | Ok a => f a
  | Raise e => Raise e
  end.

(** [a or b] on optional strings: [None] and the empty string are falsy. *)
Definition or_str (a : option string) (b : string) : string :=
  match a with
  | Some s => if decide (s = "") then b else s
  | None => b
  end.

End Py.

(** ** [os.path] on POSIX *)

Module Posixpath.

Definition sep : ascii := "/"%char.

(** [p.rfind('/') + 1]: the position just after the last separator, [0]
    when there is none. *)
Fixpoint rfind_succ (p : string) : nat :=
  match p with
  | EmptyString => 0
  | String c rest =>
      match rfind_succ rest with
      | O => if Ascii.eqb c sep then 1 else 0
      | S i => S (S i)
      end
  end.

(** [p[:i]] and [p[i:]]. *)
Definition take (i : nat) (p : string) : string := String.substring 0 i p.
Definition drop (i : nat) (p : string) : string :=
  String.substring i (String.length p - i) p.

Fixpoint all_sep (p : string) : bool :=
  match p with
  | EmptyString => true
  | String c rest => Ascii.eqb c sep && all_sep rest
  end.

(** [p.rstrip('/')]. *)
Fixpoint rstrip_sep (p : string) : string :=
  match p with
  | EmptyString => EmptyString
  | String c rest =>
      match rstrip_sep rest with
      | EmptyString => if Ascii.eqb c sep then EmptyString else String c EmptyString
      | r => String c r
      end
  end.

Definition basename (p : string) : string := drop (rfind_succ p) p.

Definition dirname (p : string) : string :=
  let head := take (rfind_succ p) p in
  if negb (String.eqb head "") && negb (all_sep head)
  then rstrip_sep head else head.

Definition startswith_sep (p : string) : bool :=
  match p with
  | String c _ => Ascii.eqb c sep
  | EmptyString => false
  end.

Fixpoint endswith_sep (p : string) : bool :=
  match p with
  | EmptyString => false
  | String c EmptyString => Ascii.eqb c sep
  | String _ rest => endswith_sep rest
  end.

(** One step of the loop of [join]. *)
Definition join2 (path b : string) : string :=
  if startswith_sep b then b
  else if String.eqb path "" || endswith_sep path then path +:+ b
  else path +:+ "/" +:+ b.

Definition join (a : string) (ps : list string) : string :=
  foldl join2 a ps.

End Posixpath.

(** ** The fragment of pandas the loaders use *)

Module Pandas.

(** Python orders [str] values by code point; on byte strings this is the
    lexicographic order of [String.leb]. *)
Definition str_le (a b : string) : Prop := Is_true (String.leb a b).

Global Instance str_le_dec a b : Decision (str_le a b) := Is_true_dec _.

Section Frame.
Context {num : Type}.

(** A column as [read_csv] builds it: of dtype [object], holding
    strings and NaN ([None]), or of a numeric dtype, holding numbers
    and NaN.  The loaders never look inside a number. *)
Inductive Series : Type :=
| ObjectSeries (values : list (option string))
| NumericSeries (values : list (option num)).

(** A frame: the row labels (the [encounter_id] index) and the columns
    in header order.  [read_csv] makes the column labels distinct, so a
    label denotes one position. *)
Record DataFrame : Type := mkDataFrame {
  index : list Z;
  columns : list (string * Series)
}.



(** The entry of row [i] in the object column at position [j]. *)
Definition object_cell (df : DataFrame) (j i : nat) : option (option string) :=
  match columns df !! j with
  | Some (_, ObjectSeries vs) => vs !! i
  | _ => None
  end.

(** *** [DataFrame.replace(dict)] *)

(** A dict from strings to strings or [np.NaN].  Every key is looked up
    in the value as it was before the call; NaN is no key. *)
Definition replace_value (d : gmap string (option string))
    (v : option string) : option string :=
  match v with
  | Some s => default (Some s) (d !! s)
  | None => None
  end.

(** String keys match no number: numeric columns are left alone.  This is
    the replacement of the values; the dtypes that pandas infers for the
    result are the matter of [Typed.convert]. *)
Definition Series_replace (d : gmap string (option string)) (s : Series) : Series :=
  match s with
  | ObjectSeries vs => ObjectSeries (replace_value d <$> vs)
  | NumericSeries vs => NumericSeries vs
  end.

Definition replace (d : gmap string (option string)) (df : DataFrame) : DataFrame :=
  {| index := index df;
     columns := prod_map id (Series_replace d) <$> columns df |}.

(** *** [Series.mode()], [Series.fillna(v)] *)

(** The values that are not NaN, in row order. *)
Definition observed (vs : list (option string)) : list string := omap id vs.

Definition count (x : string) (l : list string) : nat :=
  length (filter (x =.) l).

(** [Series.mode()] with [dropna=True]: the observed values of highest
    count, returned in sorted order. *)
Definition mode (vs : list (option string)) : list string :=
  let obs := observed vs in
  let uniq := remove_dups obs in
  let top := max_list ((fun x => count x obs) <$> uniq) in
  merge_sort str_le (filter (fun x => count x obs = top) uniq).

(** [s[0]] on the result of [mode()], whose index is [0 .. n-1]. *)
Definition getitem0 (m : list string) : Py.result string :=
  match m with
  | x :: _ => Py.Ok x
  | [] => Py.Raise (Py.KeyError 0)
  end.

Definition fillna (v : string) (vs : list (option string)) : list (option string) :=
  (fun c => match c with Some x => Some x | None => Some v end) <$> vs.

End Frame.

Global Arguments Series : clear implicits.
Global Arguments DataFrame : clear implicits.

End Pandas.

(** ** [aif360/sklearn/datasets/diabetes_dataset.py] *)

Module Sklearn.
Import Py Posixpath Pandas.

Definition DIABETES_URL : string :=
  "https://raw.githubusercontent.com/angelmanzur/Diabetes_130Hospitals/master/dataset_diabetes/diabetic_data.csv".

(** The three dicts passed to [df.replace], in source order. *)
Definition target_map : gmap string (option string) :=
  {[ "NO" := Some "1"; "<30" := Some "2"; ">30" := Some "3" ]}.

Definition null_map : gmap string (option string) :=
  {[ "?" := None ]}.

Definition age_map : gmap string (option string) :=
  {[ "[0-10)" := Some "1"; "[10-20)" := Some "2"; "[20-30)" := Some "3";
     "[30-40)" := Some "4"; "[40-50)" := Some "5"; "[50-60)" := Some "6";
     "[60-70)" := Some "7"; "[70-80)" := Some "8"; "[80-90)" := Some "9";
     "[90-100)" := Some "10" ]}.

(** What the three calls of [replace] make of an entry of an object
    column. *)
Definition remap_value (v : option string) : option string :=
  replace_value age_map (replace_value null_map (replace_value target_map v)).

(** Effects of the fetch step, in the order they happen. *)
Inductive event : Type :=
| EvIsfile (path : string)
| EvReadFile (path : string)
| EvHttpGet (url : string)
| EvMakedirs (path : string) (exist_ok : bool)
| EvToCsv (path : string).

Section Fetch.
Context {num doc : Type}.

(** [pd.read_csv(_, index_col='encounter_id')] on the bytes of a
    document ([None]: the document does not parse), and the document
    [DataFrame.to_csv] writes. *)
Context (parse_csv : doc -> option (DataFrame num)).
Context (render_csv : DataFrame num -> doc).

(** [os.path.abspath(__file__)] of the module. *)
Context (module_file : string).

(** The files and directories of the machine, what each URL serves, and
    the effects so far. *)
Record world : Type := mkWorld {
  files : gmap string doc;
  dirs : gset string;
  remote : gmap string doc;
  trace : list event
}.

Definition io (A : Type) : Type := world -> result A * world.

Definition io_ret {A} (a : A) : io A := fun w => (Ok a, w).
Definition io_bind {A B} (m : io A) (k : A -> io B) : io B := fun w =>
  match m w with
  | (Ok a, w') => k a w'
  | (Raise e, w') => (Raise e, w')
  end.
Definition lift {A} (r : result A) : io A := fun w => (r, w).

Notation "x <- m ;; k" := (io_bind m (fun x => k))
  (at level 100, m at next level, right associativity).

Definition log (e : event) (w : world) : world :=
  {| files := files w; dirs := dirs w; remote := remote w;
     trace := trace w ++ [e] |}.

(** The world after the effects [evs]. *)
Definition logged (evs : list event) (w : world) : world :=
  {| files := files w; dirs := dirs w; remote := remote w;
     trace := trace w ++ evs |}.

(** [os.path.isfile(p)]. *)
Definition isfile (p : string) : io bool := fun w =>
  (Ok (bool_decide (is_Some (files w !! p))), log (EvIsfile p) w).

Definition read_doc (what : string) (d : option doc) : result (DataFrame num) :=
  match d with
  | None => Raise (OSError what)
  | Some d =>
      match parse_csv d with
      | Some df => Ok df
      | None => Raise (ValueError what)
      end
  end.

(** [pd.read_csv(p, index_col='encounter_id')] on a local path. *)
Definition read_csv_file (p : string) : io (DataFrame num) := fun w =>
  (read_doc p (files w !! p), log (EvReadFile p) w).

(** [pd.read_csv(url, index_col='encounter_id')] on an http(s) URL. *)
Definition read_csv_url (url : string) : io (DataFrame num) := fun w =>
  (read_doc url (remote w !! url), log (EvHttpGet url) w).

(** [os.makedirs(p, exist_ok=...)]: no error on an existing directory
    when [exist_ok] is set; an existing regular file is an error either
    way.  Only the directory itself is tracked: the intermediate
    directories that [os.makedirs] also makes, and its failure below a
    regular file, are not. *)
Definition makedirs (p : string) (exist_ok : bool) : io unit := fun w =>
  let w' := log (EvMakedirs p exist_ok) w in
  if decide (p ∈ dirs w) then
    ((if exist_ok then Ok () else Raise (OSError p)), w')
  else if decide (is_Some (files w !! p)) then (Raise (OSError p), w')
  else (Ok (), {| files := files w'; dirs := {[ p ]} ∪ dirs w';
                  remote := remote w'; trace := trace w' |}).

(** [df.to_csv(p)]: the directory of [p] has to exist and [p] must not
    be a directory. *)
Definition to_csv (df : DataFrame num) (p : string) : io unit := fun w =>
  let w' := log (EvToCsv p) w in
  if decide (p ∈ dirs w ∨ (dirname p ≠ "" ∧ dirname p ∉ dirs w)) then
    (Raise (OSError p), w')
  else (Ok (), {| files := <[ p := render_csv df ]> (files w'); dirs := dirs w';
                  remote := remote w'; trace := trace w' |}).

Definition DATA_HOME_DEFAULT : string :=
  join (dirname module_file) [".."; "data"; "raw"].

Definition cache_path (data_home : option string) : string :=
  join (or_str data_home DATA_HOME_DEFAULT) [basename DIABETES_URL].

(** Lines 45-54: the table, from the cache or from the URL. *)
Definition fetch_frame (data_home : option string) (cache : bool)
    : io (DataFrame num) :=
  let data_url := DIABETES_URL in
  let cache_path := cache_path data_home in
  hit <- (if cache then isfile cache_path else io_ret false) ;;
  if hit then read_csv_file cache_path
  else
    df <- read_csv_url data_url ;;
    _ <- (if cache then
            _ <- makedirs (dirname cache_path) true ;;
            to_csv df cache_path
          else io_ret ()) ;;
    io_ret df.

(** Lines 56-65: the three remaps. *)
Definition remap (df : DataFrame num) : DataFrame num :=
  let df := replace target_map df in
  let df := replace null_map df in
  let df := replace age_map df in
  df.

(** Lines 67-69: one turn of the loop on the column at hand.  Columns
    that [select_dtypes(include=object)] leaves out are kept. *)
Definition fill_column (c : string * Series num) : result (string * Series num) :=
  match c with
  | (col, ObjectSeries vs) =>
      v ← getitem0 (mode vs);
      mret (col, ObjectSeries (fillna v vs))
  | (col, NumericSeries vs) => mret (col, NumericSeries vs)
  end.

Fixpoint fill_columns (cs : list (string * Series num))
    : result (list (string * Series num)) :=
  match cs with
  | [] => mret []
  | c :: cs =>
      c' ← fill_column c;
      cs' ← fill_columns cs;
      mret (c' :: cs')
  end.

Definition fill_na (df : DataFrame num) : result (DataFrame num) :=
  cs ← fill_columns (columns df);
  mret {| index := index df; columns := cs |}.

(** Lines 56-69. *)
Definition normalize (df : DataFrame num) : result (DataFrame num) :=
  fill_na (remap df).

(** The keyword arguments handed to [standardize_dataset], which lives
    in [aif360.sklearn.datasets.utils]. *)
Record standardize_kwargs : Type := mkStandardizeKwargs {
  prot_attr : list string;
  target : string;
  usecols : list string;
  dropcols : list string;
  numeric_only : bool;
  dropna : bool
}.

(** The defaults of [usecols] and [dropcols]. *)
Definition usecols_default : list string :=
  ["patient_nbr"; "race"; "gender"; "age"; "admission_type_id";
   "discharge_disposition_id"; "admission_source_id"; "time_in_hospital";
   "medical_specialty"; "num_lab_procedures";
   "num_procedures"; "num_medications"; "number_outpatient";
   "number_emergency"; "number_inpatient"; "diag_1"; "diag_2"; "diag_3";
   "number_diagnoses"; "max_glu_serum"; "A1Cresult"; "metformin";
   "repaglinide"; "nateglinide"; "chlorpropamide"; "glimepiride";
   "acetohexamide"; "glipizide"; "glyburide"; "tolbutamide";
   "pioglitazone"; "rosiglitazone"; "acarbose"; "miglitol"; "troglitazone";
   "tolazamide"; "examide"; "citoglipton"; "insulin";
   "glyburide-metformin"; "glipizide-metformin";
   "glimepiride-pioglitazone"; "metformin-rosiglitazone";
   "metformin-pioglitazone"; "change"; "diabetesMed"].

Definition dropcols_default : list string := ["weight"; "payer_code"].

Context {dataset : Type}.
Context (standardize_dataset :
  DataFrame num -> standardize_kwargs -> result dataset).

Definition fetch_diabetes (data_home : option string) (cache : bool)
    (usecols dropcols : list string) (numeric_only dropna : bool)
    : io dataset :=
  df <- fetch_frame data_home cache ;;
  df <- lift (normalize df) ;;
  lift (standardize_dataset df
    {| prot_attr := ["admission_type_id"; "discharge_disposition_id";
                     "admission_source_id"];
       target := "readmitted"; usecols := usecols; dropcols := dropcols;
       numeric_only := numeric_only; dropna := dropna |}).

End Fetch.

End Sklearn.

(** ** [aif360/datasets/diabetes_dataset.py] *)

Module Legacy.
Import Py Posixpath Pandas.

(** [default_mappings['protected_attribute_maps']]: for each protected
    attribute, the description of each code. *)
Definition default_mappings : list (list (Z * string)) :=
  [
    [
      (1%Z, "Emergency"); (2%Z, "Urgent"); (3%Z, "Elective"); (4%Z, "Newborn"); (5%Z, "Not Available");
      (6%Z, "NULL"); (7%Z, "Trauma Center"); (8%Z, "Not Mapped") ];
    [
      (1%Z, "Discharged to home"); (2%Z, "Discharged/transferred to another short term hospital");
      (3%Z, "Discharged/transferred to SNF"); (4%Z, "Discharged/transferred to ICF");
      (5%Z, "Discharged/transferred to another type of inpatient care institution");
      (6%Z, "Discharged/transferred to home with home health service"); (7%Z, "Left AMA");
      (8%Z, "Discharged/transferred to home under care of Home IV provider");
      (9%Z, "Admitted as an inpatient to this hospital");
      (10%Z, "Neonate discharged to another hospital for neonatal aftercare"); (11%Z, "Expired");
      (12%Z, "Still patient or expected to return for outpatient services"); (13%Z, "Hospice / home");
      (14%Z, "Hospice / medical facility");
      (15%Z, "Discharged/transferred within this institution to Medicare approved swing bed");
      (16%Z, "Discharged/transferred/referred another institution for outpatient services");
      (17%Z, "Discharged/transferred/referred to this institution for outpatient services");
      (18%Z, "NULL"); (19%Z, "Expired at home. Medicaid only, hospice.");
      (20%Z, "Expired in a medical facility. Medicaid only, hospice.");
      (21%Z, "Expired, place unknown. Medicaid only, hospice.");
      (22%Z, "Discharged/transferred to another rehab fac including rehab units of a hospital .");
      (23%Z, "Discharged/transferred to a long term care hospital.");
      (24%Z, "Discharged/transferred to a nursing facility certified under Medicaid but not certified under Medicare.");
      (25%Z, "Not Mapped"); (26%Z, "Unknown/Invalid");
      (27%Z, "Discharged/transferred to a federal health care facility.");
      (28%Z, "Discharged/transferred/referred to a psychiatric hospital of psychiatric distinct part unit of a hospital");
      (29%Z, "Discharged/transferred to a Critical Access Hospital (CAH).");
      (30%Z, "Discharged/transferred to another Type of Health Care Institution not Defined Elsewhere") ];
    [
      (1%Z, "Physician Referral"); (2%Z, "Clinic Referral"); (3%Z, "HMO Referral");
      (4%Z, "Transfer from a hospital"); (5%Z, "Transfer from a Skilled Nursing Facility (SNF)");
      (6%Z, "Transfer from another health care facility"); (7%Z, "Emergency Room");
      (8%Z, "Court/Law Enforcement"); (9%Z, "Not Available");
      (10%Z, "Transfer from critial access hospital"); (11%Z, "Normal Delivery");
      (12%Z, "Premature Delivery"); (13%Z, "Sick Baby"); (14%Z, "Extramural Birth");
      (15%Z, "Not Available"); (17%Z, "NULL"); (18%Z, "Transfer From Another Home Health Agency");
      (19%Z, "Readmission to Same Home Health Agency"); (20%Z, "Not Mapped"); (21%Z, "Unknown/Invalid");
      (22%Z, "Transfer from hospital inpt/same fac reslt in a sep claim");
      (23%Z, "Born inside this hospital"); (24%Z, "Born outside this hospital");
      (25%Z, "Transfer from Ambulatory Surgery Center"); (26%Z, "Transfer from Hospice") ] ].

Section Dataset.
Context {num doc : Type}.

(** [pd.read_csv(_, sep=..., na_values=...)] on the bytes of a document;
    [None] when the document does not parse. *)
Context (parse_csv : string -> list string -> doc -> option (DataFrame num)).

(** [__file__] of the module, and [os.path.abspath]. *)
Context (module_file : string) (abspath : string -> string).

(** The arguments of [__init__], which are also those of
    [StandardDataset.__init__] once [df] is added. *)
Record init_kwargs : Type := mkInitKwargs {
  label_name : string;
  favorable_classes : list string;
  protected_attribute_names : list string;
  privileged_classes : list (list string);
  instance_weights_name : option string;
  categorical_features : list string;
  features_to_keep : list string;
  features_to_drop : list string;
  na_values : list string;
  custom_preprocessing : option (DataFrame num -> DataFrame num);
  metadata : list (list (Z * string))
}.

(** The defaults of the signature. *)
Definition defaults : init_kwargs :=
  {| label_name := "readmitted ";
     favorable_classes := ["<30"];
     protected_attribute_names :=
       ["admission_type_id"; "discharge_disposition_id"; "admission_source_id"];
     privileged_classes := [];
     instance_weights_name := None;
     categorical_features :=
       ["race"; "gender"; "age"; "weight"; "payer_code"; "medical_specialty";
        "diag_1"; "diag_2"; "diag_3"; "max_glu_serum"; "A1Cresult"; "metformin";
        "repaglinide"; "nateglinide"; "chlorpropamide"; "glimepiride";
        "acetohexamide"; "glipizide"; "glyburide"; "tolbutamide";
        "pioglitazone"; "rosiglitazone"; "acarbose"; "miglitol"; "troglitazone";
        "tolazamide"; "examide"; "citoglipton"; "insulin";
        "glyburide-metformin"; "glipizide-metformin";
        "glimepiride-pioglitazone"; "metformin-rosiglitazone";
        "metformin-pioglitazone"; "change"; "diabetesMed"; "readmitted"];
     features_to_keep := [];
     features_to_drop := ["weight"];
     na_values := ["?"];
     custom_preprocessing := None;
     metadata := default_mappings |}.

(** The local files, and the lines printed so far (each without the
    newline that [print] adds). *)
Record world : Type := mkWorld {
  files : gmap string doc;
  stdout : list string
}.

Definition io (A : Type) : Type := world -> result A * world.

Definition io_ret {A} (a : A) : io A := fun w => (Ok a, w).
Definition io_bind {A B} (m : io A) (k : A -> io B) : io B := fun w =>
  match m w with
  | (Ok a, w') => k a w'
  | (Raise e, w') => (Raise e, w')
  end.

Notation "x <- m ;; k" := (io_bind m (fun x => k))
  (at level 100, m at next level, right associativity).

(** [try: body  except IOError as err: handler]. *)
Definition try_except_IOError {A} (body : io A) (handler : exn -> io A) : io A :=
  fun w =>
    match body w with
    | (Raise err, w') =>
        if is_IOError err then handler err w' else (Raise err, w')
    | r => r
    end.

Definition print (line : string) : io unit := fun w =>
  (Ok (), {| files := files w; stdout := stdout w ++ [line] |}).

(** [sys.exit(code)]. *)
Definition sys_exit {A} (code : Z) : io A := fun w => (Raise (SystemExit code), w).

(** [str] of the [FileNotFoundError] that [open] raises. *)
Definition no_such_file (p : string) : string :=
  "[Errno 2] No such file or directory: '" +:+ p +:+ "'".

(** [pd.read_csv(p, sep=sep, na_values=na_values)] on a local path. *)
Definition read_csv (p sep : string) (na_values : list string)
    : io (DataFrame num) := fun w =>
  match files w !! p with
  | None => (Raise (OSError (no_such_file p)), w)
  | Some d =>
      match parse_csv sep na_values d with
      | Some df => (Ok df, w)
      | None => (Raise (ValueError p), w)
      end
  end.

Definition filepath : string :=
  join (dirname (abspath module_file))
    [".."; "data"; "raw"; "diabetes"; "diabetic_data.csv"].

(** The folder the instructions name. *)
Definition folder : string :=
  abspath (join (abspath module_file) [".."; ".."; "data"; "raw"; "diabetes"]).

Definition tab : string := String (ascii_of_nat 9) EmptyString.
Definition nl : string := String (ascii_of_nat 10) EmptyString.

Context {base : Type}.

(** [StandardDataset.__init__(df=df, ...)], defined in
    [aif360.datasets]. *)
Context (StandardDataset_init : DataFrame num -> init_kwargs -> io base).

Definition DiabetesDataset_init (kw : init_kwargs) : io base :=
  df <- try_except_IOError
          (read_csv filepath ";" (na_values kw))
          (fun err =>
             _ <- print ("IOError: " +:+ str err) ;;
             _ <- print "To use this class, please download the following file:" ;;
             _ <- print (nl +:+ tab +:+
                  "https://archive.ics.uci.edu/ml/machine-learning-databases/00296/dataset_diabetes.zip") ;;
             _ <- print (nl +:+ "unzip it and place the files, as-is, in the folder:") ;;
             _ <- print (nl +:+ tab +:+ folder +:+ nl) ;;
             sys_exit 1) ;;
  StandardDataset_init df
    {| label_name := label_name kw;
       favorable_classes := favorable_classes kw;
       protected_attribute_names := protected_attribute_names kw;
       privileged_classes := privileged_classes kw;
       instance_weights_name := instance_weights_name kw;
       categorical_features := categorical_features kw;
       features_to_keep := features_to_keep kw;
       features_to_drop := features_to_drop kw;
       na_values := na_values kw;
       custom_preprocessing := custom_preprocessing kw;
       metadata := metadata kw |}.

End Dataset.

End Legacy.

(** ** Vocabulary of the specification *)

Module Spec.
Import Py Pandas Sklearn.

(** [v] is a most frequent observed value of the column. *)
Definition most_frequent (v : string) (vs : list (option string)) : Prop :=
  v ∈ observed vs ∧ ∀ x, (count x (observed vs) ≤ count v (observed vs))%nat.

(** The most frequent observed value, ties broken by the value met first
    in row order. *)
Definition mode_first_encountered (vs : list (option string)) : option string :=
  let obs := observed vs in
  let top := max_list ((fun x => count x obs) <$> obs) in
  head (filter (fun x => count x obs = top) obs).

(** The raw label tokens and their codes. *)
Definition label_tokens : list string := ["NO"; "<30"; ">30"].
Definition label_codes : list string := ["1"; "2"; "3"].

(** The k-th decade bucket, [[10(k-1)-10k)], and the code [k] as the
    remap writes it, in decimal. *)
Definition bucket (k : nat) : string :=
  "[" +:+ pretty (10 * (k - 1)) +:+ "-" +:+ pretty (10 * k) +:+ ")".

Definition ordinal_code (k : nat) : string := pretty k.

(** An entry of an object column that normalization has nothing to do
    with: not missing, and none of the label tokens, the sentinel or the
    bucket strings. *)
Definition clean (v : option string) : Prop :=
  match v with
  | Some s => target_map !! s = None ∧ null_map !! s = None ∧ age_map !! s = None
  | None => False
  end.

Definition normalized {num} (df : DataFrame num) : Prop :=
  ∀ j col vs, columns df !! j = Some (col, ObjectSeries vs) → Forall clean vs.

(** No object column is without rows. *)
Definition object_columns_nonempty {num} (df : DataFrame num) : Prop :=
  ∀ j col vs, columns df !! j = Some (col, ObjectSeries vs) → vs ≠ [].

(** An object column with an entry that is still observed once the
    sentinel has become NaN. *)
Definition has_value (vs : list (option string)) : Prop :=
  ∃ s, Some s ∈ vs ∧ s ≠ "?".

(** Imputation where [pick] chooses the fill value of a column: every
    object column of the result is the input column with its missing
    entries replaced by the chosen value. *)
Definition imputes_with {num} (pick : list (option string) → option string)
    (df : DataFrame num) : Prop :=
  ∀ df', fill_na df = Ok df' →
  ∀ j col vs, columns df !! j = Some (col, ObjectSeries vs) →
    ∃ v, pick vs = Some v ∧
         columns df' !! j = Some (col, ObjectSeries (fillna v vs)).

(** The outcome is the exception of the class named [cls]. *)
Definition raises {A} (cls : string) (r : result A) : Prop :=
  ∃ e, r = Raise e ∧ class_name e = cls.

End Spec.

(** ** Sample tables *)

Module Examples.
Import Pandas.

(** Three encounters; [race] has a tie between its two observed values
    once the sentinel is gone. *)
Definition df_sample : DataFrame Z :=
  {| index := [2278392; 149190; 64410]%Z;
     columns :=
       [("race", ObjectSeries [Some "Caucasian"; Some "AfricanAmerican"; Some "?"]);
        ("age", ObjectSeries [Some "[0-10)"; Some "[10-20)"; Some "[10-20)"]);
        ("time_in_hospital", NumericSeries [Some 1; Some 3; None]%Z);
        ("readmitted", ObjectSeries [Some "NO"; Some ">30"; Some "NO"])] |}.

(** A column with a tie and a missing entry. *)
Definition df_ties : DataFrame Z :=
  {| index := [2278392; 149190; 64410]%Z;
     columns :=
       [("race", ObjectSeries [Some "Caucasian"; Some "AfricanAmerican"; None])] |}.

(** [weight] has rows and no observed entry. *)
Definition df_all_missing : DataFrame Z :=
  {| index := [2278392; 149190]%Z;
     columns :=
       [("gender", ObjectSeries [Some "Female"; Some "Male"]);
        ("weight", ObjectSeries [None; None])] |}.

(** The table of a file that has a header and no rows. *)
Definition df_header_only : DataFrame Z :=
  {| index := []; columns := [("race", ObjectSeries [])] |}.

(** A table that has been normalized. *)
Definition df_normalized : DataFrame Z :=
  {| index := [2278392; 149190]%Z;
     columns :=
       [("race", ObjectSeries [Some "Caucasian"; Some "AfricanAmerican"]);
        ("age", ObjectSeries [Some "1"; Some "2"]);
        ("time_in_hospital", NumericSeries [Some 1; None]%Z);
        ("readmitted", ObjectSeries [Some "1"; Some "3"])] |}.

(** A machine where documents are tables as they are. *)
Definition parse_csv (d : DataFrame Z) : option (DataFrame Z) := Some d.
Definition render_csv (df : DataFrame Z) : DataFrame Z := df.
Definition module_file : string :=
  "/opt/aif360/sklearn/datasets/diabetes_dataset.py".

(** The cache holds the file; the URL is out of reach. *)
Definition world_cached : Sklearn.world (doc:=DataFrame Z) :=
  {| Sklearn.files := {[ "/tmp/aif360/diabetic_data.csv" := df_sample ]};
     Sklearn.dirs := {[ "/tmp/aif360" ]};
     Sklearn.remote := ∅;
     Sklearn.trace := [] |}.

(** Nothing on disk; the URL serves the table. *)
Definition world_online : Sklearn.world (doc:=DataFrame Z) :=
  {| Sklearn.files := ∅;
     Sklearn.dirs := ∅;
     Sklearn.remote := {[ Sklearn.DIABETES_URL := df_sample ]};
     Sklearn.trace := [] |}.

(** The legacy loader on a machine without the data file, and on one that
    has it. *)
Definition legacy_module_file : string :=
  "/opt/aif360/datasets/diabetes_dataset.py".
Definition legacy_parse_csv (sep : string) (na_values : list string)
    (d : DataFrame Z) : option (DataFrame Z) := Some d.
Definition abspath (p : string) : string := p.
Definition legacy_world_empty : Legacy.world (doc:=DataFrame Z) :=
  {| Legacy.files := ∅; Legacy.stdout := [] |}.
Definition legacy_world_ready : Legacy.world (doc:=DataFrame Z) :=
  {| Legacy.files :=
       {[ "/opt/aif360/datasets/../data/raw/diabetes/diabetic_data.csv" := df_sample ]};
     Legacy.stdout := [] |}.

(** A base class that records the label column it is given. *)
Definition StandardDataset_init (df : DataFrame Z)
    (kw : Legacy.init_kwargs (num:=Z)) : Legacy.io (doc:=DataFrame Z) string :=
  fun w => (Py.Ok (Legacy.label_name kw), w).

End Examples.

(** ** [DataFrame.replace] with the dtypes of its result *)

Module Typed.
Import Py Pandas Sklearn.

Section Dtypes.
Context {num : Type}.

(** The dtype inference that [DataFrame.replace] ends with: an object
    column that has rows and holds nothing but NaN becomes a float64
    column; every other column keeps its dtype, an object column without
    rows included. *)
Definition convert_series (s : Series num) : Series num :=
  match s with
  | ObjectSeries vs =>
      if decide (vs ≠ [] ∧ Forall (fun c => c = None) vs)
      then NumericSeries ((fun _ => None) <$> vs)
      else ObjectSeries vs
  | NumericSeries vs => NumericSeries vs
  end.

Definition convert (df : DataFrame num) : DataFrame num :=
  {| index := index df;
     columns := prod_map id convert_series <$> columns df |}.

(** [df.replace(dict)]: the values replaced, then the dtypes inferred. *)
Definition replace (d : gmap string (option string)) (df : DataFrame num)
    : DataFrame num :=
  convert (Pandas.replace d df).

(** Lines 56-65 with the dtypes. *)
Definition remap (df : DataFrame num) : DataFrame num :=
  let df := replace target_map df in
  let df := replace null_map df in
  let df := replace age_map df in
  df.

(** Lines 56-69 with the dtypes: the loop visits the columns that are
    object columns after the three calls of [replace]. *)
Definition normalize (df : DataFrame num) : result (DataFrame num) :=
  fill_na (remap df).

End Dtypes.
End Typed.

(** ** Vocabulary of the further properties *)

Module Extra.
Import Py Posixpath Pandas.

(** Two dicts that do not interfere: no key in common, and no value of one
    that is a key of the other. *)
Definition independent (d1 d2 : gmap string (option string)) : Prop :=
  (∀ s, d1 !! s = None ∨ d2 !! s = None) ∧
  (∀ s x, d1 !! s = Some (Some x) → d2 !! x = None) ∧
  (∀ s x, d2 !! s = Some (Some x) → d1 !! x = None).

(** What a run that starts in [w] and ends in [w'] may have touched when
    [p] is the only file it may write: the URL contents are as before,
    every other file is as before, no directory is gone, and the trace has
    grown at its end. *)
Definition footprint {doc} (p : string) (w w' : Sklearn.world (doc:=doc)) : Prop :=
  Sklearn.remote w' = Sklearn.remote w ∧
  (∀ q, q ≠ p → Sklearn.files w' !! q = Sklearn.files w !! q) ∧
  (∀ q, q ∈ Sklearn.dirs w → q ∈ Sklearn.dirs w') ∧
  ∃ evs, Sklearn.trace w' = (Sklearn.trace w ++ evs)%list.

(** A parser that refuses a table without rows. *)
Definition parse_rows (d : DataFrame Z) : option (DataFrame Z) :=
  match index d with
  | [] => None
  | _ => Some d
  end.

(** The machine of [Examples.world_online] once a fetch has filled the
    cache. *)
Definition world_filled : Sklearn.world (doc:=DataFrame Z) :=
  {| Sklearn.files := {[ "/tmp/aif360/diabetic_data.csv" := Examples.df_sample ]};
     Sklearn.dirs := {[ "/tmp/aif360" ]};
     Sklearn.remote := {[ Sklearn.DIABETES_URL := Examples.df_sample ]};
     Sklearn.trace :=
       [Sklearn.EvIsfile "/tmp/aif360/diabetic_data.csv";
        Sklearn.EvHttpGet Sklearn.DIABETES_URL;
        Sklearn.EvMakedirs "/tmp/aif360" true;
        Sklearn.EvToCsv "/tmp/aif360/diabetic_data.csv"] |}.

(** The cache holds a file that does not parse. *)
Definition world_corrupt : Sklearn.world (doc:=DataFrame Z) :=
  {| Sklearn.files := {[ "/tmp/aif360/diabetic_data.csv" := Examples.df_header_only ]};
     Sklearn.dirs := {[ "/tmp/aif360" ]};
     Sklearn.remote := {[ Sklearn.DIABETES_URL := Examples.df_sample ]};
     Sklearn.trace := [] |}.

(** The cache directory is taken by a regular file. *)
Definition world_blocked : Sklearn.world (doc:=DataFrame Z) :=
  {| Sklearn.files := {[ "/tmp/aif360" := Examples.df_sample ]};
     Sklearn.dirs := ∅;
     Sklearn.remote := {[ Sklearn.DIABETES_URL := Examples.df_sample ]};
     Sklearn.trace := [] |}.

(** Nothing on disk; the URL serves a table without rows. *)
Definition world_no_rows : Sklearn.world (doc:=DataFrame Z) :=
  {| Sklearn.files := ∅;
     Sklearn.dirs := ∅;
     Sklearn.remote := {[ Sklearn.DIABETES_URL := Examples.df_header_only ]};
     Sklearn.trace := [] |}.

(** A standardizer that returns the table with the name of its target. *)
Definition standardize_dataset (df : DataFrame Z)
    (kw : Sklearn.standardize_kwargs) : Py.result (DataFrame Z * string) :=
  Py.Ok (df, Sklearn.target kw).

(** A parser of the legacy loader that refuses every document. *)
Definition legacy_parse_none (sep : string) (na_values : list string)
    (d : DataFrame Z) : option (DataFrame Z) := None.

End Extra.

(** * Properties *)

(** ** The order on strings and [Series.mode] *)

Module PandasFacts.
Import Py Pandas Spec.

Lemma ascii_compare_lt a b :
  Ascii.compare a b = Lt ↔ (Ascii.N_of_ascii a < Ascii.N_of_ascii b)%N.
Proof. unfold Ascii.compare. apply N.compare_lt_iff. Qed.

Lemma ascii_compare_refl a : Ascii.compare a a = Eq.
Proof. unfold Ascii.compare. apply N.compare_refl. Qed.

Lemma string_leb_trans a b c :
  String.leb a b = true → String.leb b c = true → String.leb a c = true.
Proof.
  unfold String.leb. revert b c.
  induction a as [|x a IH]; intros [|y b] [|z c]; simpl; try done.
  destruct (Ascii.compare x y) eqn:Hxy; try done;
    destruct (Ascii.compare y z) eqn:Hyz; try done.
  - apply Ascii.compare_eq_iff in Hxy as ->.
    apply Ascii.compare_eq_iff in Hyz as ->.
    rewrite ascii_compare_refl. apply IH.
  - apply Ascii.compare_eq_iff in Hxy as ->. by rewrite Hyz.
  - apply Ascii.compare_eq_iff in Hyz as <-. by rewrite Hxy.
  - apply ascii_compare_lt in Hxy, Hyz.
    assert (Ascii.compare x z = Lt) as ->; [|done].
    apply ascii_compare_lt. by etrans.
Qed.

Global Instance str_le_trans : Transitive str_le.
Proof.
  intros a b c Hab Hbc. apply Is_true_true. apply Is_true_true in Hab, Hbc.
  eauto using string_leb_trans.
Qed.

Global Instance str_le_total : Total str_le.
Proof.
  intros a b. unfold str_le. rewrite !Is_true_true. apply String.leb_total.
Qed.

Lemma count_zero x l : x ∉ l → count x l = 0.
Proof.
  unfold count. induction l as [|y l IH]; [done|].
  rewrite not_elem_of_cons. intros [Hne Hnin].
  rewrite filter_cons. case_decide; [congruence|]. auto.
Qed.

(** The count that [mode] selects on is the highest count of all. *)
Lemma top_count_ge (obs : list string) x :
  (count x obs ≤ max_list ((fun y => count y obs) <$> remove_dups obs))%nat.
Proof.
  destruct (decide (x ∈ obs)) as [Hin|Hnin].
  - apply max_list_elem_of_le, list_elem_of_fmap.
    exists x. split; [done|]. by apply elem_of_remove_dups.
  - rewrite count_zero by done. lia.
Qed.

Lemma top_count_attained (obs : list string) :
  obs ≠ [] →
  ∃ x, x ∈ obs ∧ count x obs = max_list ((fun y => count y obs) <$> remove_dups obs).
Proof.
  intros Hne.
  assert ((fun y => count y obs) <$> remove_dups obs ≠ []) as Hne'.
  { destruct obs as [|a obs]; [done|].
    assert (a ∈ remove_dups (a :: obs)) as Ha
      by (apply elem_of_remove_dups; left).
    intros Heq. apply fmap_nil_inv in Heq. rewrite Heq in Ha.
    by apply not_elem_of_nil in Ha. }
  apply max_list_elem_of, list_elem_of_fmap in Hne' as (x & Hx & Hin).
  exists x. split; [by apply elem_of_remove_dups|done].
Qed.

Lemma elem_of_mode x vs : x ∈ mode vs ↔ most_frequent x vs.
Proof.
  unfold mode, most_frequent. cbv zeta.
  rewrite merge_sort_Permutation, list_elem_of_filter, elem_of_remove_dups.
  split.
  - intros [Hc Hin]. split; [done|]. intros y. rewrite Hc. apply top_count_ge.
  - intros [Hin Hmax]. split; [|done].
    destruct (top_count_attained (observed vs)) as (y & _ & Hy).
    { intros Heq. rewrite Heq in Hin. by apply not_elem_of_nil in Hin. }
    apply Nat.le_antisymm; [apply top_count_ge|]. rewrite <- Hy. apply Hmax.
Qed.

Lemma mode_nil vs : observed vs = [] → mode vs = [].
Proof.
  intros Hobs. destruct (mode vs) as [|x m] eqn:Hm; [done|].
  assert (x ∈ mode vs) as Hx by (rewrite Hm; left).
  apply elem_of_mode in Hx as [Hin _]. rewrite Hobs in Hin.
  by apply not_elem_of_nil in Hin.
Qed.

Lemma mode_nonempty vs : observed vs ≠ [] → mode vs ≠ [].
Proof.
  intros Hne Hm.
  destruct (top_count_attained _ Hne) as (x & Hin & Hx).
  assert (x ∈ mode vs) as Hmode.
  { apply elem_of_mode. split; [done|]. intros y. rewrite Hx. apply top_count_ge. }
  rewrite Hm in Hmode. by apply not_elem_of_nil in Hmode.
Qed.

(** [mode()[0]] is the least of the most frequent values. *)
Lemma getitem0_mode vs v :
  getitem0 (mode vs) = Ok v ↔
  most_frequent v vs ∧ ∀ x, most_frequent x vs → str_le v x.
Proof.
  pose proof (StronglySorted_merge_sort str_le
    (filter (fun x => count x (observed vs) =
               max_list ((fun y => count y (observed vs)) <$> remove_dups (observed vs)))
            (remove_dups (observed vs)))) as Hs.
  pose proof (elem_of_mode) as Hel.
  assert (NoDup (mode vs)) as Hnd.
  { unfold mode. cbv zeta. rewrite merge_sort_Permutation.
    apply NoDup_filter, NoDup_remove_dups. }
  change (merge_sort _ _) with (mode vs) in Hs.
  destruct (mode vs) as [|m ms] eqn:Hm; simpl.
  - split; [done|]. intros [Hv _]. apply Hel in Hv. rewrite Hm in Hv.
    by apply not_elem_of_nil in Hv.
  - apply StronglySorted_cons in Hs as [Hall _]. rewrite Forall_forall in Hall.
    assert (∀ x, most_frequent x vs → str_le m x) as Hleast.
    { intros x Hx. apply Hel in Hx. rewrite Hm in Hx.
      apply elem_of_cons in Hx as [->|Hx]; [|by apply Hall].
      destruct (total str_le m m); done. }
    split.
    + intros [= <-]. split; [|done]. apply Hel. rewrite Hm. left.
    + intros [Hv Hmin]. f_equal.
      apply String.leb_antisym; apply Is_true_true; [apply Hleast|apply Hmin]; [done|].
      apply Hel. rewrite Hm. left.
Qed.

Lemma getitem0_mode_raise vs e :
  getitem0 (mode vs) = Raise e ↔ observed vs = [] ∧ e = KeyError 0.
Proof.
  split.
  - destruct (mode vs) eqn:Hm; simpl; [|done]. intros [= <-]. split; [|done].
    destruct (observed vs) eqn:Hobs; [done|].
    exfalso. apply (mode_nonempty vs); [by rewrite Hobs|done].
  - intros [Hobs ->]. by rewrite mode_nil.
Qed.

Lemma fillna_lookup v vs i :
  fillna v vs !! i = (fun c => Some (default v c)) <$> vs !! i.
Proof.
  unfold fillna. rewrite list_lookup_fmap. by destruct (vs !! i) as [[?|]|].
Qed.

Lemma fillna_length v vs : length (fillna v vs) = length vs.
Proof. unfold fillna. by rewrite length_fmap. Qed.

Lemma fillna_no_missing v vs :
  Forall (fun c => c ≠ None) vs → fillna v vs = vs.
Proof.
  unfold fillna. induction vs as [|[x|] vs IH]; [done| |].
  - intros [_ Hvs]%Forall_cons. rewrite fmap_cons. f_equal. by apply IH.
  - by intros [? _]%Forall_cons.
Qed.

End PandasFacts.

(** ** Paths *)

Module PosixpathFacts.
Import Posixpath.

Lemma string_app_nil_l y : "" +:+ y = y.
Proof. reflexivity. Qed.

Lemma string_app_cons c x y : String c x +:+ y = String c (x +:+ y).
Proof. reflexivity. Qed.

Lemma rfind_succ_le p : (rfind_succ p ≤ String.length p)%nat.
Proof.
  induction p as [|c p IH]; simpl; [done|].
  destruct (rfind_succ p); [destruct (Ascii.eqb c sep)|]; lia.
Qed.

Lemma rfind_succ_app x y :
  rfind_succ (x +:+ y) =
  match rfind_succ y with
  | O => rfind_succ x
  | S i => (String.length x + S i)%nat
  end.
Proof.
  induction x as [|c x IH].
  - rewrite string_app_nil_l. destruct (rfind_succ y); reflexivity.
  - rewrite string_app_cons. simpl. rewrite IH.
    destruct (rfind_succ y) as [|n]; [reflexivity|].
    by rewrite Nat.add_succ_r.
Qed.

Lemma take_length_le i p : (String.length (take i p) ≤ i)%nat.
Proof.
  unfold take. revert p. induction i as [|i IH]; intros [|c p]; simpl; try lia.
  specialize (IH p). lia.
Qed.

Lemma take_app x y : take (String.length x) (x +:+ y) = x.
Proof.
  unfold take. induction x as [|c x IH].
  - rewrite string_app_nil_l. by destruct y.
  - rewrite string_app_cons. simpl. by rewrite IH.
Qed.

Lemma rstrip_sep_length_le p : (String.length (rstrip_sep p) ≤ String.length p)%nat.
Proof.
  induction p as [|c p IH]; simpl; [done|].
  destruct (rstrip_sep p); [destruct (Ascii.eqb c sep)|]; simpl in *; lia.
Qed.

Lemma dirname_length_le p : (String.length (dirname p) ≤ rfind_succ p)%nat.
Proof.
  unfold dirname. pose proof (take_length_le (rfind_succ p) p).
  pose proof (rstrip_sep_length_le (take (rfind_succ p) p)).
  destruct (_ && _); lia.
Qed.

Lemma string_app_assoc x y z : (x +:+ y) +:+ z = x +:+ (y +:+ z).
Proof.
  induction x as [|c x IH]; [done|]. rewrite !string_app_cons. by rewrite IH.
Qed.

Lemma string_app_length x y :
  String.length (x +:+ y) = (String.length x + String.length y)%nat.
Proof. induction x as [|c x IH]; simpl; [done|]. by rewrite IH. Qed.

Lemma rstrip_sep_snoc h :
  h ≠ "" → endswith_sep h = false → rstrip_sep (h +:+ "/") = h.
Proof.
  induction h as [|c h IH]; [done|]. intros _ Hend.
  destruct h as [|c' h].
  - simpl in *. by rewrite Hend.
  - rewrite string_app_cons. cbn [rstrip_sep]. rewrite IH by done. done.
Qed.

Lemma all_sep_snoc h :
  h ≠ "" → endswith_sep h = false → all_sep (h +:+ "/") = false.
Proof.
  induction h as [|c h IH]; [done|]. intros _ Hend.
  destruct h as [|c' h].
  - simpl in *. by rewrite Hend.
  - rewrite string_app_cons. cbn [all_sep]. rewrite IH by done. apply andb_false_r.
Qed.

(** The directory of a file joined to a directory name that is written
    without a trailing separator is that directory. *)
Lemma dirname_join home base :
  home ≠ "" → endswith_sep home = false →
  startswith_sep base = false → rfind_succ base = 0%nat →
  dirname (join home [base]) = home.
Proof.
  intros Hne Hend Hstart Hbase. unfold join. simpl. unfold join2.
  rewrite Hstart, Hend.
  assert (String.eqb home "" = false) as -> by by apply String.eqb_neq.
  simpl. unfold dirname.
  assert (rfind_succ (home +:+ "/" +:+ base) = String.length (home +:+ "/")) as Hi.
  { rewrite rfind_succ_app. change ("/" +:+ base) with (String sep base).
    simpl. rewrite Hbase. simpl. rewrite string_app_length. done. }
  rewrite Hi. rewrite <- (string_app_assoc home "/" base), take_app.
  assert (String.eqb (home +:+ "/") "" = false) as ->.
  { apply String.eqb_neq. by destruct home. }
  rewrite all_sep_snoc by done. simpl. by apply rstrip_sep_snoc.
Qed.

(** A path that ends in a file name differs from its directory. *)
Lemma dirname_ne x base :
  base ≠ "" → rfind_succ base = 0%nat → dirname (x +:+ base) ≠ x +:+ base.
Proof.
  intros Hne Hbase Heq. apply (f_equal String.length) in Heq.
  pose proof (dirname_length_le (x +:+ base)) as Hle.
  rewrite rfind_succ_app, Hbase in Hle. pose proof (rfind_succ_le x).
  rewrite string_app_length in Heq. destruct base; [done|]. simpl in Heq. lia.
Qed.

Lemma join_file_suffix home base :
  startswith_sep base = false → ∃ x, join home [base] = x +:+ base.
Proof.
  intros Hstart. unfold join. simpl. unfold join2. rewrite Hstart.
  destruct (_ || _); [by exists home|].
  exists (home +:+ "/"). by rewrite string_app_assoc.
Qed.

End PosixpathFacts.

(** ** The fetch step of [fetch_diabetes] *)

Module SklearnFetch.
Import Py Posixpath Pandas Sklearn PosixpathFacts.

Lemma basename_DIABETES_URL : basename DIABETES_URL = "diabetic_data.csv".
Proof. reflexivity. Qed.

Section Fetch.
Context {num doc : Type}.
Context (parse_csv : doc → option (DataFrame num)).
Context (render_csv : DataFrame num → doc).
Context (module_file : string).

Local Abbreviation fetch := (fetch_frame parse_csv render_csv module_file).
Local Abbreviation path := (cache_path module_file).

Lemma cache_path_ne_dirname data_home : dirname (path data_home) ≠ path data_home.
Proof.
  unfold cache_path. rewrite basename_DIABETES_URL.
  destruct (join_file_suffix (or_str data_home (DATA_HOME_DEFAULT module_file))
              "diabetic_data.csv") as [x ->]; [done|].
  by apply dirname_ne.
Qed.

Lemma io_bind_Ok {A B} (m : io A) (k : A → io B) (w w' : world (doc:=doc)) a :
  m w = (Ok a, w') → io_bind m k w = k a w'.
Proof. unfold io_bind. by intros ->. Qed.

Lemma io_bind_Raise {A B} (m : io A) (k : A → io B) (w w' : world (doc:=doc)) e :
  m w = (Raise e, w') → io_bind m k w = (Raise e, w').
Proof. unfold io_bind. by intros ->. Qed.

Lemma logged_logged evs evs' (w : world (doc:=doc)) :
  logged evs' (logged evs w) = logged (evs ++ evs') w.
Proof. unfold logged. cbn [files dirs remote trace]. by rewrite app_assoc. Qed.

Lemma isfile_run p (w : world (doc:=doc)) :
  isfile p w = (Ok (bool_decide (is_Some (files w !! p))), logged [EvIsfile p] w).
Proof. reflexivity. Qed.

Lemma read_csv_file_run p w :
  read_csv_file parse_csv p w =
  (read_doc parse_csv p (files w !! p), logged [EvReadFile p] w).
Proof. reflexivity. Qed.

Lemma read_csv_url_run url w :
  read_csv_url parse_csv url w =
  (read_doc parse_csv url (remote w !! url), logged [EvHttpGet url] w).
Proof. reflexivity. Qed.

(** [makedirs(d, exist_ok=True)] succeeds whether or not [d] is there,
    unless [d] is a regular file; afterwards [d] is a directory. *)
Lemma makedirs_exist_ok d (w : world (doc:=doc)) :
  files w !! d = None →
  makedirs d true w =
  (Ok (), {| files := files w; dirs := {[ d ]} ∪ dirs w; remote := remote w;
             trace := trace w ++ [EvMakedirs d true] |}).
Proof.
  intros Hfile. unfold makedirs.
  destruct (decide (d ∈ dirs w)) as [Hin|Hnin].
  - assert ({[ d ]} ∪ dirs w = dirs w) as ->
      by by apply subseteq_union_1_L, singleton_subseteq_l.
    reflexivity.
  - rewrite decide_False by (rewrite Hfile; by intros [? ?]). reflexivity.
Qed.

Lemma to_csv_run df p (w : world (doc:=doc)) :
  p ∉ dirs w → dirname p ∈ dirs w →
  to_csv render_csv df p w =
  (Ok (), {| files := <[ p := render_csv df ]> (files w); dirs := dirs w;
             remote := remote w; trace := trace w ++ [EvToCsv p] |}).
Proof.
  intros Hp Hd. unfold to_csv.
  rewrite decide_False by (intros [?|[_ ?]]; done). reflexivity.
Qed.

Lemma fetch_hit data_home w :
  is_Some (files w !! path data_home) →
  fetch data_home true w =
  (read_doc parse_csv (path data_home) (files w !! path data_home),
   logged [EvIsfile (path data_home); EvReadFile (path data_home)] w).
Proof.
  intros Hfile. unfold fetch_frame. cbv zeta.
  erewrite io_bind_Ok by apply isfile_run.
  rewrite bool_decide_true by done.
  by rewrite read_csv_file_run, logged_logged.
Qed.

Lemma fetch_no_cache data_home w :
  fetch data_home false w =
  (read_doc parse_csv DIABETES_URL (remote w !! DIABETES_URL),
   logged [EvHttpGet DIABETES_URL] w).
Proof.
  unfold fetch_frame. cbv zeta.
  erewrite io_bind_Ok by reflexivity.
  destruct (read_doc parse_csv DIABETES_URL (remote w !! DIABETES_URL))
    as [df|e] eqn:Hread.
  - erewrite io_bind_Ok by (rewrite read_csv_url_run, Hread; reflexivity).
    by erewrite io_bind_Ok by reflexivity.
  - by erewrite io_bind_Raise by (rewrite read_csv_url_run, Hread; reflexivity).
Qed.

Lemma fetch_miss_unreachable data_home w e :
  files w !! path data_home = None →
  read_doc parse_csv DIABETES_URL (remote w !! DIABETES_URL) = Raise e →
  fetch data_home true w =
  (Raise e, logged [EvIsfile (path data_home); EvHttpGet DIABETES_URL] w).
Proof.
  intros Hfile Hread. unfold fetch_frame. cbv zeta.
  erewrite io_bind_Ok by apply isfile_run.
  rewrite bool_decide_false by (rewrite Hfile; by intros [? ?]).
  erewrite io_bind_Raise; [reflexivity|].
  rewrite read_csv_url_run, logged_logged.
  cbn [files dirs remote trace logged]. by rewrite Hread.
Qed.

Lemma fetch_miss_persist data_home w df :
  files w !! path data_home = None →
  read_doc parse_csv DIABETES_URL (remote w !! DIABETES_URL) = Ok df →
  files w !! dirname (path data_home) = None →
  path data_home ∉ dirs w →
  fetch data_home true w =
  (Ok df,
   {| files := <[ path data_home := render_csv df ]> (files w);
      dirs := {[ dirname (path data_home) ]} ∪ dirs w;
      remote := remote w;
      trace := trace w ++ [EvIsfile (path data_home); EvHttpGet DIABETES_URL;
                           EvMakedirs (dirname (path data_home)) true;
                           EvToCsv (path data_home)] |}).
Proof.
  intros Hfile Hread Hdir Hnodir.
  pose proof (cache_path_ne_dirname data_home) as Hne.
  unfold fetch_frame. cbv zeta.
  erewrite io_bind_Ok by apply isfile_run.
  rewrite bool_decide_false by (rewrite Hfile; by intros [? ?]).
  erewrite io_bind_Ok; last first.
  { rewrite read_csv_url_run, logged_logged.
    cbn [files dirs remote trace logged]. by rewrite Hread. }
  erewrite io_bind_Ok; last first.
  { erewrite io_bind_Ok by (by apply makedirs_exist_ok).
    apply to_csv_run; cbn [files dirs remote trace logged].
    - intros [Hp%elem_of_singleton|Hp]%elem_of_union; [by apply Hne|done].
    - by apply elem_of_union_l, elem_of_singleton. }
  unfold io_ret. cbn [files dirs remote trace logged].
  by rewrite <- !app_assoc.
Qed.

(** Claim C1.  The cache file is the last segment of the URL,
    [diabetic_data.csv], under the cache directory.  With [cache] set
    and that file present, the table is read from it and the only
    effects are the test for the file and the local read.  With [cache]
    set and the file absent, the URL is read; if that fails nothing is
    written, and if it yields a table then the directory of the cache
    file is made with [exist_ok] set (present or not beforehand), the
    table is written to the cache file, and the table is returned.  With
    [cache] unset the URL is read and files and directories are left
    as they were. *)
Theorem fetch_frame_cache_policy data_home w :
  let p := path data_home in
  let home := or_str data_home (DATA_HOME_DEFAULT module_file) in
  (p = join home [basename DIABETES_URL] ∧
   basename DIABETES_URL = "diabetic_data.csv" ∧
   (home ≠ "" → endswith_sep home = false → dirname p = home)) ∧
  (is_Some (files w !! p) →
     fetch data_home true w =
     (read_doc parse_csv p (files w !! p), logged [EvIsfile p; EvReadFile p] w)) ∧
  (files w !! p = None →
     (∀ e, read_doc parse_csv DIABETES_URL (remote w !! DIABETES_URL) = Raise e →
        fetch data_home true w =
        (Raise e, logged [EvIsfile p; EvHttpGet DIABETES_URL] w)) ∧
     (∀ df, read_doc parse_csv DIABETES_URL (remote w !! DIABETES_URL) = Ok df →
        files w !! dirname p = None → p ∉ dirs w →
        fetch data_home true w =
        (Ok df,
         {| files := <[ p := render_csv df ]> (files w);
            dirs := {[ dirname p ]} ∪ dirs w;
            remote := remote w;
            trace := trace w ++ [EvIsfile p; EvHttpGet DIABETES_URL;
                                 EvMakedirs (dirname p) true; EvToCsv p] |}))) ∧
  fetch data_home false w =
  (read_doc parse_csv DIABETES_URL (remote w !! DIABETES_URL),
   logged [EvHttpGet DIABETES_URL] w).
Proof.
  intros p home. split_and!.
  - done.
  - done.
  - intros Hne Hend. by apply dirname_join.
  - apply fetch_hit.
  - intros Hfile. split.
    + intros e. by apply fetch_miss_unreachable.
    + intros df. by apply fetch_miss_persist.
  - apply fetch_no_cache.
Qed.

(** After a fetch that filled the cache, the next one reads the cache
    and leaves the URL alone. *)
Lemma fetch_twice data_home w w1 df :
  files w !! path data_home = None →
  fetch data_home true w = (Ok df, w1) →
  fetch data_home true w1 =
  (read_doc parse_csv (path data_home) (Some (render_csv df)),
   logged [EvIsfile (path data_home); EvReadFile (path data_home)] w1).
Proof.
  intros Hfile Hrun.
  assert (files w1 !! path data_home = Some (render_csv df)) as Hw1.
  { revert Hrun. unfold fetch_frame. cbv zeta.
    erewrite io_bind_Ok by apply isfile_run.
    rewrite bool_decide_false by (rewrite Hfile; by intros [? ?]).
    unfold io_bind at 1.
    destruct (read_csv_url _ _ _) as [[df0|e] w0]; [|done].
    unfold io_bind at 1. unfold io_bind.
    destruct (makedirs _ _ _) as [[[]|e] w2]; [|done].
    unfold to_csv. destruct (decide _); [done|].
    unfold io_ret. intros [= <- <-]. cbn [files]. by rewrite lookup_insert_eq. }
  rewrite fetch_hit by (by rewrite Hw1). by rewrite Hw1.
Qed.

End Fetch.

Lemma fetch_frame_cache_policy_witness :
  dirname (cache_path Examples.module_file (Some "/tmp/aif360")) = "/tmp/aif360" ∧
  (fetch_frame Examples.parse_csv Examples.render_csv Examples.module_file
     (Some "/tmp/aif360") true Examples.world_cached).1 = Ok Examples.df_sample ∧
  (fetch_frame Examples.parse_csv Examples.render_csv Examples.module_file
     (Some "/tmp/aif360") true Examples.world_online).1 = Ok Examples.df_sample.
Proof.
  destruct (fetch_frame_cache_policy Examples.parse_csv Examples.render_csv
              Examples.module_file (Some "/tmp/aif360") Examples.world_cached)
    as ((_ & _ & Hdir) & Hhit & _).
  destruct (fetch_frame_cache_policy Examples.parse_csv Examples.render_csv
              Examples.module_file (Some "/tmp/aif360") Examples.world_online)
    as (_ & _ & Hmiss & _).
  split_and!.
  - by apply Hdir.
  - rewrite Hhit; [reflexivity|]. by eexists.
  - destruct (Hmiss eq_refl) as [_ Hpersist].
    rewrite (Hpersist Examples.df_sample); [reflexivity..|].
    vm_compute. intros Hin. discriminate Hin.
Defined.

End SklearnFetch.

(** ** The remaps of [fetch_diabetes] *)

Module SklearnRemap.
Import Py Pandas Sklearn Spec.

Section Remap.
Context {num : Type}.
Implicit Types df : DataFrame num.

Lemma replace_columns_lookup d df j :
  columns (replace d df) !! j = prod_map id (Series_replace d) <$> columns df !! j.
Proof. unfold replace. simpl. apply list_lookup_fmap. Qed.

Lemma replace_object_cell d df j i :
  object_cell (replace d df) j i = replace_value d <$> object_cell df j i.
Proof.
  unfold object_cell. rewrite replace_columns_lookup.
  destruct (columns df !! j) as [[col [vs|vs]]|]; simpl; [|done..].
  apply list_lookup_fmap.
Qed.


Lemma remap_object_cell df j i :
  object_cell (remap df) j i = remap_value <$> object_cell df j i.
Proof.
  unfold remap. rewrite !replace_object_cell.
  by destruct (object_cell df j i).
Qed.


(** An entry with nothing to remap is left as it is. *)
Lemma replace_value_clean v :
  clean v → remap_value v = v.
Proof.
  destruct v as [s|]; [|done]. intros (Ht & Hn & Ha). unfold remap_value. simpl.
  rewrite Ht. simpl. rewrite Hn. simpl. by rewrite Ha.
Qed.

(** Claim C3.  Each remap rule is applied across the whole table: a
    matching value is replaced at whatever column position [j] and row
    [i] it stands.  The rules run in the fixed order label tokens,
    sentinel, buckets, so that an entry ends as the bucket rule applied
    to the sentinel rule applied to the label rule; imputation comes
    after the three. *)
Theorem remap_rules_whole_table_in_order df :
  (∀ d, d ∈ [target_map; null_map; age_map] →
     ∀ j i s r, object_cell df j i = Some (Some s) → d !! s = Some r →
       object_cell (replace d df) j i = Some r) ∧
  remap df = replace age_map (replace null_map (replace target_map df)) ∧
  (∀ j i v, object_cell df j i = Some v →
     object_cell (remap df) j i =
     Some (replace_value age_map
             (replace_value null_map (replace_value target_map v)))) ∧
  normalize df = fill_na (remap df).
Proof.
  split_and!; [|done| |done].
  - intros d _ j i s r Hcell Hd.
    rewrite replace_object_cell, Hcell. simpl. by rewrite Hd.
  - intros j i v Hcell. by rewrite remap_object_cell, Hcell.
Qed.

End Remap.

Lemma remap_rules_whole_table_in_order_witness :
  object_cell (replace age_map Examples.df_sample) 1 2 = Some (Some "2") ∧
  object_cell (remap Examples.df_sample) 0 2 = Some None.
Proof.
  destruct (remap_rules_whole_table_in_order Examples.df_sample)
    as (Hrule & _ & Hcell & _).
  split.
  - apply (Hrule age_map) with (s := "[10-20)"); [|reflexivity..].
    apply elem_of_cons. right. apply elem_of_cons. right. apply elem_of_cons. by left.
  - by rewrite (Hcell 0 2 (Some "?")).
Defined.

End SklearnRemap.

(** ** The label and bucket dicts *)

Module SklearnDicts.
Import Py Pandas Sklearn Spec SklearnRemap.

Lemma target_map_lookup s v :
  target_map !! s = Some v ↔
  (s, v) ∈ [("NO", Some "1"); ("<30", Some "2"); (">30", Some "3")].
Proof.
  unfold target_map. rewrite !lookup_insert, lookup_singleton.
  rewrite !elem_of_cons, elem_of_nil.
  repeat destruct (decide _) as [<-|?]; split; intros Hs; simplify_eq;
    intuition congruence.
Qed.

(** Claim C4.  The label remap sends ['NO'], ['<30'], ['>30'] to ['1'],
    ['2'], ['3'] in this order: distinct tokens get distinct codes, the
    codes are exactly the images of the tokens, a value that is no token
    is left as it is, and every cell of a table is treated so. *)
Theorem target_map_bijective :
  (replace_value target_map (Some "NO") = Some "1" ∧
   replace_value target_map (Some "<30") = Some "2" ∧
   replace_value target_map (Some ">30") = Some "3") ∧
  (∀ s s', s ∈ label_tokens → s' ∈ label_tokens →
     replace_value target_map (Some s) = replace_value target_map (Some s') →
     s = s') ∧
  (∀ c, c ∈ label_codes ↔
     ∃ s, s ∈ label_tokens ∧ replace_value target_map (Some s) = Some c) ∧
  (∀ v, v ∉ Some <$> label_tokens → replace_value target_map v = v) ∧
  (∀ num (df : DataFrame num) j i v, object_cell df j i = Some v →
     object_cell (replace target_map df) j i = Some (replace_value target_map v)).
Proof.
  split_and!; try done.
  - intros s s'. unfold label_tokens. rewrite !elem_of_cons, !elem_of_nil.
    intros [->|[->|[->|[]]]] [->|[->|[->|[]]]]; done.
  - intros c. unfold label_codes, label_tokens. split.
    + rewrite !elem_of_cons, elem_of_nil.
      intros [->|[->|[->|[]]]];
        [exists "NO"|exists "<30"|exists ">30"]; (split; [set_solver|done]).
    + intros (s & Hs & Hc). revert Hs Hc. rewrite !elem_of_cons, !elem_of_nil.
      intros [->|[->|[->|[]]]] [= <-]; set_solver.
  - intros [s|] Hv; [|done]. simpl.
    destruct (target_map !! s) as [r|] eqn:Hs; [|done].
    apply target_map_lookup in Hs. exfalso. apply Hv.
    unfold label_tokens. revert Hs. rewrite !elem_of_cons, elem_of_nil.
    intros [[= -> _]|[[= -> _]|[[= -> _]|[]]]]; set_solver.
  - intros num df j i v Hcell. by rewrite replace_object_cell, Hcell.
Qed.

Lemma age_map_lookup s v :
  age_map !! s = Some v ↔
  ∃ k, (1 ≤ k ≤ 10)%nat ∧ s = bucket k ∧ v = Some (ordinal_code k).
Proof.
  unfold age_map. rewrite !lookup_insert, lookup_singleton. split.
  - repeat case_decide; try done; intros [= <-]; subst s;
      [exists 1|exists 2|exists 3|exists 4|exists 5|exists 6|exists 7
      |exists 8|exists 9|exists 10]; (split; [lia|done]).
  - intros (k & Hk & -> & ->).
    assert (k ∈ seq 1 10) as Hin by (apply elem_of_seq; lia).
    cbv [seq] in Hin. rewrite !elem_of_cons, elem_of_nil in Hin.
    destruct Hin as [->|[->|[->|[->|[->|[->|[->|[->|[->|[->|[]]]]]]]]]]]; done.
Qed.


Lemma target_map_bijective_witness :
  object_cell (replace target_map Examples.df_sample) 3 1 = Some (Some "3").
Proof.
  destruct target_map_bijective as (_ & _ & _ & _ & Hcell).
  by rewrite (Hcell Z Examples.df_sample 3 1 (Some ">30")).
Defined.


End SklearnDicts.

(** ** Imputation and the normalizer as a whole *)

Module SklearnNormalize.
Import Py Pandas Sklearn Spec PandasFacts SklearnRemap SklearnDicts.

Section Normalize.
Context {num : Type}.
Implicit Types df : DataFrame num.
Implicit Types cs : list (string * Series num).

Lemma fill_column_object col vs (c' : string * Series num) :
  fill_column (col, ObjectSeries vs) = Ok c' ↔
  ∃ v, getitem0 (mode vs) = Ok v ∧ c' = (col, ObjectSeries (fillna v vs)).
Proof.
  simpl. destruct (getitem0 (mode vs)) as [v|e]; simpl.
  - split; [intros [= <-]; eauto|]. by intros (v' & [= <-] & ->).
  - split; [done|]. by intros (? & ? & _).
Qed.

Lemma fill_column_raise (c : string * Series num) e :
  fill_column c = Raise e ↔
  ∃ col vs, c = (col, ObjectSeries vs) ∧ observed vs = [] ∧ e = KeyError 0.
Proof.
  destruct c as [col [vs|vs]]; simpl.
  - destruct (getitem0 (mode vs)) as [v|e'] eqn:Hg; simpl.
    + split; [done|]. intros (? & ? & [= <- <-] & Hobs & _).
      assert (getitem0 (mode vs) = Raise (KeyError 0)) as Hr
        by by apply getitem0_mode_raise.
      congruence.
    + apply getitem0_mode_raise in Hg as [Hobs ->].
      split; [intros [= <-]; eauto 6|]. by intros (? & ? & _ & _ & ->).
  - split; [done|]. by intros (? & ? & ? & _).
Qed.

Lemma fill_columns_Ok cs cs' :
  fill_columns cs = Ok cs' ↔ Forall2 (fun c c' => fill_column c = Ok c') cs cs'.
Proof.
  revert cs'. induction cs as [|c cs IH]; intros cs'; simpl.
  - split; [intros [= <-]; constructor|]. by intros ->%Forall2_nil_inv_l.
  - destruct (fill_column c) as [c1|e] eqn:Hc; simpl.
    + destruct (fill_columns cs) as [cs1|e] eqn:Hcs; simpl.
      * split; [intros [= <-]; constructor; [done|by apply IH]|].
        intros (c2 & cs2 & Hc2 & Hcs2 & ->)%Forall2_cons_inv_l.
        apply IH in Hcs2.
        assert (c2 = c1) as -> by congruence.
        assert (cs2 = cs1) as -> by congruence. reflexivity.
      * split; [done|].
        intros (c2 & cs2 & _ & Hcs2 & ->)%Forall2_cons_inv_l.
        by apply IH in Hcs2.
    + split; [done|]. intros (c2 & cs2 & ? & _)%Forall2_cons_inv_l. congruence.
Qed.

Lemma fill_columns_raise cs e :
  fill_columns cs = Raise e ↔
  e = KeyError 0 ∧ ∃ col vs, (col, ObjectSeries vs) ∈ cs ∧ observed vs = [].
Proof.
  revert e. induction cs as [|c cs IH]; intros e; simpl.
  - split; [done|]. intros (_ & ? & ? & []%not_elem_of_nil & _).
  - destruct (fill_column c) as [c1|e1] eqn:Hc; simpl.
    + destruct (fill_columns cs) as [cs1|e2] eqn:Hcs; simpl.
      * split; [done|]. intros (-> & col & vs & Hin & Hobs).
        apply elem_of_cons in Hin as [<-|Hin].
        -- assert (fill_column (col, ObjectSeries vs) = Raise (KeyError 0)) as Hr
             by (apply fill_column_raise; eauto).
           congruence.
        -- assert (Ok cs1 = Raise (KeyError 0)) by (apply IH; eauto). done.
      * destruct (IH e2) as [IH2 _].
        destruct (IH2 eq_refl) as (-> & col & vs & Hin & Hobs).
        split; [|by intros (-> & _)].
        intros [= <-]. split; [done|]. exists col, vs. split; [by right|done].
    + apply fill_column_raise in Hc as (col & vs & -> & Hobs & ->).
      split; [|by intros (-> & _)].
      intros [= <-]. split; [done|]. exists col, vs. split; [left|done].
Qed.

Lemma fill_na_Ok df df' :
  fill_na df = Ok df' ↔
  index df' = index df ∧
  Forall2 (fun c c' => fill_column c = Ok c') (columns df) (columns df').
Proof.
  unfold fill_na. split.
  - destruct (fill_columns (columns df)) as [cs|e] eqn:Hcs; [|done].
    intros [= <-]. split; [done|]. by apply fill_columns_Ok.
  - destruct df' as [ix cs']. simpl. intros [-> Hcs'].
    apply fill_columns_Ok in Hcs'. by rewrite Hcs'.
Qed.



Lemma remap_columns df :
  columns (remap df) =
  prod_map id (fun s => match s with
                        | ObjectSeries vs => ObjectSeries (remap_value <$> vs)
                        | NumericSeries vs => NumericSeries vs
                        end) <$> columns df.
Proof.
  unfold remap, replace. simpl. rewrite <- !list_fmap_compose.
  apply list_fmap_ext. intros _ [col [vs|vs]] _; simpl; [|done].
  by rewrite <- !list_fmap_compose.
Qed.

Lemma remap_value_None v : remap_value v = None ↔ v = None ∨ v = Some "?".
Proof.
  unfold remap_value. destruct v as [s|]; simpl; [|split; [by left|done]].
  destruct (target_map !! s) as [r|] eqn:Ht; simpl.
  - apply target_map_lookup in Ht.
    rewrite !elem_of_cons, elem_of_nil in Ht.
    destruct Ht as [[= -> ->]|[[= -> ->]|[[= -> ->]|[]]]];
      (split; [intros Hr; vm_compute in Hr; done|intros [?|?]; done]).
  - destruct (decide (s = "?")) as [->|Hne]; [split; [by right|done]|].
    assert (null_map !! s = None) as ->
      by (unfold null_map; by rewrite lookup_singleton_ne).
    simpl. destruct (age_map !! s) as [r|] eqn:Ha; simpl.
    + apply age_map_lookup in Ha as (k & _ & _ & ->).
      split; [done|intros [?|?]; congruence].
    + split; [done|intros [?|?]; congruence].
Qed.

Lemma observed_nil vs : observed vs = [] ↔ Forall (fun c => c = None) vs.
Proof.
  unfold observed. induction vs as [|[s|] vs IH]; simpl.
  - split; [constructor|done].
  - split; [done|]. by intros [? _]%Forall_cons.
  - rewrite IH. split; [by constructor|]. by intros [_ ?]%Forall_cons.
Qed.

Lemma observed_remap_nil vs :
  observed (remap_value <$> vs) = [] ↔ ¬ has_value vs.
Proof.
  rewrite observed_nil, Forall_fmap, Forall_forall. unfold has_value. split.
  - intros Hall (s & Hin & Hne). apply Hall in Hin. simpl in Hin.
    apply remap_value_None in Hin as [|]; congruence.
  - intros Hno c Hin. simpl. apply remap_value_None.
    destruct c as [s|]; [|by left]. right. f_equal.
    destruct (decide (s = "?")); [done|]. exfalso. apply Hno. eauto.
Qed.

Lemma remap_value_clean v x : remap_value v = Some x → clean (Some x).
Proof.
  unfold remap_value. destruct v as [s|]; simpl; [|done].
  destruct (target_map !! s) as [r|] eqn:Ht; simpl.
  - apply target_map_lookup in Ht.
    rewrite !elem_of_cons, elem_of_nil in Ht.
    destruct Ht as [[= -> ->]|[[= -> ->]|[[= -> ->]|[]]]];
      intros Hr; vm_compute in Hr; injection Hr as <-; by vm_compute.
  - destruct (null_map !! s) as [r|] eqn:Hn; simpl.
    + unfold null_map in Hn. apply lookup_singleton_Some in Hn as [<- <-]. done.
    + destruct (age_map !! s) as [r|] eqn:Ha; simpl.
      * apply age_map_lookup in Ha as (k & Hk & _ & ->). intros [= <-].
        assert (k ∈ seq 1 10) as Hin by (apply elem_of_seq; lia).
        cbv [seq] in Hin. rewrite !elem_of_cons, elem_of_nil in Hin.
        destruct Hin as [->|[->|[->|[->|[->|[->|[->|[->|[->|[->|[]]]]]]]]]]];
          by vm_compute.
      * intros [= <-]. done.
Qed.

Lemma fill_na_total df :
  (∀ j col vs, columns df !! j = Some (col, ObjectSeries vs) → observed vs ≠ []) →
  ∃ df', fill_na df = Ok df'.
Proof.
  intros Hobs. unfold fill_na.
  destruct (fill_columns (columns df)) as [cs|e] eqn:Hcs; simpl; [eauto|].
  apply fill_columns_raise in Hcs as (_ & col & vs & Hin & Hnil).
  apply list_elem_of_lookup in Hin as [j Hj]. by destruct (Hobs j col vs Hj).
Qed.

Lemma fill_na_object df df' j col vs :
  fill_na df = Ok df' →
  columns df !! j = Some (col, ObjectSeries vs) →
  ∃ v, getitem0 (mode vs) = Ok v ∧
       columns df' !! j = Some (col, ObjectSeries (fillna v vs)).
Proof.
  intros [_ Hcs]%fill_na_Ok Hj.
  destruct (Forall2_lookup_l _ _ _ _ _ Hcs Hj) as (c' & Hj' & Hc).
  apply fill_column_object in Hc as (v & Hv & ->). eauto.
Qed.

(** Claim C2, as amended.  The imputation step returns whenever every
    object column has an observed value, and then every object column is
    filled with a most frequent observed value of that column, the
    least one in the order of strings when several are equally
    frequent: each missing entry becomes that value and every other
    entry is kept. *)
Theorem fill_na_least_most_frequent df :
  ((∀ j col vs, columns df !! j = Some (col, ObjectSeries vs) →
      observed vs ≠ []) →
   ∃ df', fill_na df = Ok df') ∧
  (∀ df', fill_na df = Ok df' →
   ∀ j col vs, columns df !! j = Some (col, ObjectSeries vs) →
     ∃ v, most_frequent v vs ∧
          (∀ x, most_frequent x vs → str_le v x) ∧
          columns df' !! j = Some (col, ObjectSeries (fillna v vs)) ∧
          (∀ i, vs !! i = Some None → fillna v vs !! i = Some (Some v)) ∧
          (∀ i x, vs !! i = Some (Some x) → fillna v vs !! i = Some (Some x))).
Proof.
  split; [apply fill_na_total|].
  intros df' Hfill j col vs Hj.
  destruct (fill_na_object _ _ _ _ _ Hfill Hj) as (v & Hv & Hj').
  apply getitem0_mode in Hv as [Hmost Hleast].
  exists v. split_and!; [done..| |].
  - intros i Hi. by rewrite fillna_lookup, Hi.
  - intros i x Hi. by rewrite fillna_lookup, Hi.
Qed.

Lemma remap_lookup_object df j col vs :
  columns df !! j = Some (col, ObjectSeries vs) →
  columns (remap df) !! j = Some (col, ObjectSeries (remap_value <$> vs)).
Proof. intros Hj. by rewrite remap_columns, list_lookup_fmap, Hj. Qed.

Lemma remap_lookup_object_inv df j col vs' :
  columns (remap df) !! j = Some (col, ObjectSeries vs') →
  ∃ vs, columns df !! j = Some (col, ObjectSeries vs) ∧ vs' = remap_value <$> vs.
Proof.
  rewrite remap_columns, list_lookup_fmap.
  destruct (columns df !! j) as [[col' [vs|vs]]|]; simpl; [|done..].
  intros [= <- <-]. eauto.
Qed.



Lemma remap_values_clean vs : Forall clean vs → remap_value <$> vs = vs.
Proof.
  induction 1 as [|v vs Hv _ IH]; [done|].
  rewrite fmap_cons. f_equal; [by apply replace_value_clean|done].
Qed.

Lemma remap_normalized df : normalized df → remap df = df.
Proof.
  intros Hnorm. destruct df as [ix cs].
  unfold remap, replace. simpl. f_equal.
  pose proof (remap_columns {| index := ix; columns := cs |}) as Hcols.
  unfold remap, replace in Hcols. simpl in Hcols. rewrite Hcols.
  apply list_eq. intros j. rewrite list_lookup_fmap.
  destruct (cs !! j) as [[col [vs|vs]]|] eqn:Hj; simpl; [|done..].
  do 3 f_equal. by eapply remap_values_clean, Hnorm.
Qed.

Lemma clean_not_missing vs : Forall clean vs → Forall (fun c => c ≠ None) vs.
Proof. intros Hvs. eapply Forall_impl; [done|]. by intros [s|]. Qed.

Lemma fill_na_noop df :
  (∀ j col vs, columns df !! j = Some (col, ObjectSeries vs) →
     vs ≠ [] ∧ Forall (fun c => c ≠ None) vs) →
  fill_na df = Ok df.
Proof.
  intros Hcols. apply fill_na_Ok. split; [done|].
  apply Forall2_same_length_lookup. split; [done|].
  intros j c c' Hj Hj'. assert (c' = c) as -> by congruence.
  destruct c as [col [vs|vs]]; [|done].
  destruct (Hcols j col vs Hj) as [Hne Hfull].
  apply fill_column_object.
  destruct (getitem0 (mode vs)) as [v|e] eqn:Hg.
  - exists v. split; [done|]. by rewrite fillna_no_missing.
  - apply getitem0_mode_raise in Hg as [Hobs _].
    apply observed_nil in Hobs. destruct vs as [|c vs]; [done|].
    apply Forall_cons in Hobs as [-> _]. by apply Forall_cons in Hfull as [? _].
Qed.

(** Claim C9, as amended.  On a table without sentinel, bucket strings,
    label tokens or missing entries in its object columns, and whose
    object columns have at least one row, normalization returns the
    table unchanged. *)
Theorem normalize_noop_on_normalized df :
  normalized df → object_columns_nonempty df → normalize df = Ok df.
Proof.
  intros Hnorm Hne. unfold normalize. rewrite remap_normalized by done.
  apply fill_na_noop. intros j col vs Hj. split; [by eapply Hne|].
  by eapply clean_not_missing, Hnorm.
Qed.

(** What [normalize] returns is normalized, so a second pass returns it
    again. *)
Lemma normalize_result_normalized df df' :
  normalize df = Ok df' → normalized df' ∧ object_columns_nonempty df'.
Proof.
  intros Hn.
  assert (∀ j col vs', columns df' !! j = Some (col, ObjectSeries vs') →
    vs' ≠ [] ∧ Forall clean vs') as Hboth.
  { intros j col vs' Hj'. apply fill_na_Ok in Hn as [_ Hcs].
    destruct (Forall2_lookup_r _ _ _ _ _ Hcs Hj') as (c & Hj & Hc).
    destruct c as [col0 [vs0|vs0]]; [|by injection Hc].
    apply fill_column_object in Hc as (v & Hv & [= -> ->]).
    apply remap_lookup_object_inv in Hj as (vs & _ & ->).
    apply getitem0_mode in Hv as [[Hin _] _].
    unfold observed in Hin. apply list_elem_of_omap in Hin as (c & Hc & Hcv).
    simpl in Hcv. subst c.
    split.
    - intros Hnil. apply (f_equal length) in Hnil.
      rewrite fillna_length in Hnil. apply length_zero_iff_nil in Hnil.
      rewrite Hnil in Hc. by apply not_elem_of_nil in Hc.
    - assert (clean (Some v)) as Hclean.
      { apply list_elem_of_fmap in Hc as (c0 & Hc0 & _).
        symmetry in Hc0. by apply remap_value_clean in Hc0. }
      unfold fillna. rewrite Forall_fmap, Forall_fmap, Forall_forall.
      intros c0 _. simpl.
      destruct (remap_value c0) as [x|] eqn:Hx; [|done].
      by apply remap_value_clean in Hx. }
  split; intros j col vs' Hj'; by destruct (Hboth j col vs' Hj').
Qed.

Lemma normalize_idempotent df df' :
  normalize df = Ok df' → normalize df' = Ok df'.
Proof.
  intros [Hnorm Hne]%normalize_result_normalized.
  unfold normalize. rewrite remap_normalized by done.
  apply fill_na_noop. intros j col vs Hj. split; [by eapply Hne|].
  by eapply clean_not_missing, Hnorm.
Qed.

End Normalize.

Lemma fill_na_least_most_frequent_witness :
  ∃ df' v, fill_na Examples.df_ties = Ok df' ∧
           most_frequent v [Some "Caucasian"; Some "AfricanAmerican"; None] ∧
           columns df' !! 0 =
           Some ("race", ObjectSeries
                   (fillna v [Some "Caucasian"; Some "AfricanAmerican"; None])).
Proof.
  destruct (fill_na_least_most_frequent Examples.df_ties) as [Htotal Hfill].
  destruct Htotal as [df' Hdf'].
  { intros [|[|j]] col vs; simpl; [|done..]. by intros [= <- <-]. }
  destruct (Hfill df' Hdf' 0 "race"
              [Some "Caucasian"; Some "AfricanAmerican"; None] eq_refl)
    as (v & Hv & _ & Hcol & _).
  eauto.
Defined.

(** Claim C2 as stated fails: on a tie, the value met first in row order
    is not the one that is filled in. *)
Lemma fill_na_not_first_encountered :
  ¬ imputes_with mode_first_encountered Examples.df_ties.
Proof.
  intros Hclaim.
  destruct (Hclaim
    {| index := [2278392; 149190; 64410]%Z;
       columns := [("race", ObjectSeries [Some "Caucasian"; Some "AfricanAmerican";
                                          Some "AfricanAmerican"])] |}
    eq_refl 0 "race" [Some "Caucasian"; Some "AfricanAmerican"; None] eq_refl)
    as (v & Hv & Hcol).
  vm_compute in Hv. injection Hv as <-. vm_compute in Hcol. discriminate Hcol.
Qed.


Lemma normalize_noop_on_normalized_witness :
  normalize Examples.df_normalized = Ok Examples.df_normalized.
Proof.
  apply normalize_noop_on_normalized.
  - intros [|[|[|[|j]]]] col vs; simpl; try done; intros [= <- <-];
      repeat constructor.
  - intros [|[|[|[|j]]]] col vs; simpl; try done; by intros [= <- <-].
Defined.

(** Claim C9 as stated fails: the table of a header without rows has
    nothing to normalize, and normalization raises on it. *)
Lemma normalize_header_only_fails :
  ¬ (normalized Examples.df_header_only →
     normalize Examples.df_header_only = Ok Examples.df_header_only).
Proof.
  intros Hclaim. assert (normalized Examples.df_header_only) as Hnorm.
  { intros [|j] col vs; simpl; [|done]. intros [= <- <-]. constructor. }
  apply Hclaim in Hnorm. vm_compute in Hnorm. discriminate Hnorm.
Qed.

End SklearnNormalize.

(** ** The legacy [DiabetesDataset] *)

Module LegacyProps.
Import Py Posixpath Pandas Legacy.

Section Dataset.
Context {num doc base : Type}.
Context (parse_csv : string → list string → doc → option (DataFrame num)).
Context (module_file : string) (abspath : string → string).
Context (StandardDataset_init :
  DataFrame num → init_kwargs (num:=num) → io (doc:=doc) base).

Local Abbreviation init :=
  (DiabetesDataset_init parse_csv module_file abspath StandardDataset_init).
Local Abbreviation filepath := (filepath module_file abspath).
Local Abbreviation folder := (folder module_file abspath).

Lemma read_csv_missing sep na (w : world (doc:=doc)) :
  files w !! filepath = None →
  read_csv parse_csv filepath sep na w = (Raise (OSError (no_such_file filepath)), w).
Proof. intros Hfile. unfold read_csv. by rewrite Hfile. Qed.

Lemma read_csv_present sep na (w : world (doc:=doc)) d :
  files w !! filepath = Some d →
  read_csv parse_csv filepath sep na w =
  (match parse_csv sep na d with
   | Some df => Ok df
   | None => Raise (ValueError filepath)
   end, w).
Proof. intros Hfile. unfold read_csv. rewrite Hfile. by destruct (parse_csv _ _ _). Qed.

(** Claim C7.  When the local data file is not there, the constructor
    prints the error with the path of the file, the instructions and the
    folder the files belong in, and ends with [SystemExit(1)], which is
    no [Exception] a caller would catch; the base class is not
    reached. *)
Theorem init_missing_file_exits kw (w : world (doc:=doc)) :
  files w !! filepath = None →
  init kw w =
  (Raise (SystemExit 1),
   {| files := files w;
      stdout := stdout w ++
        ["IOError: " +:+ no_such_file filepath;
         "To use this class, please download the following file:";
         nl +:+ tab +:+
           "https://archive.ics.uci.edu/ml/machine-learning-databases/00296/dataset_diabetes.zip";
         nl +:+ "unzip it and place the files, as-is, in the folder:";
         nl +:+ tab +:+ folder +:+ nl] |}) ∧
  is_Exception (SystemExit 1) = false.
Proof.
  intros Hfile. split; [|done].
  unfold DiabetesDataset_init, io_bind at 1, try_except_IOError.
  rewrite read_csv_missing by done. cbn [is_IOError].
  unfold io_bind, print, sys_exit. cbn [files stdout str].
  by rewrite <- !app_assoc.
Qed.

(** A file that is there and does not parse is another matter: the
    parser error reaches the caller. *)
Lemma init_unparsable_propagates kw (w : world (doc:=doc)) d :
  files w !! filepath = Some d →
  parse_csv ";" (na_values kw) d = None →
  init kw w = (Raise (ValueError filepath), w).
Proof.
  intros Hfile Hparse.
  unfold DiabetesDataset_init, io_bind at 1, try_except_IOError.
  rewrite (read_csv_present _ _ _ d) by done. by rewrite Hparse.
Qed.

(** Claim C10.  The default [label_name] is ['readmitted '] with a
    trailing space, while the default [categorical_features] name the
    column ['readmitted']; on a call with the defaults the label name
    handed to the base class is therefore not ['readmitted']. *)
Theorem default_label_name_trailing_space :
  label_name (defaults (num:=num)) = "readmitted " ∧
  label_name (defaults (num:=num)) ≠ "readmitted" ∧
  "readmitted" ∈ categorical_features (defaults (num:=num)) ∧
  ∀ (w : world (doc:=doc)) d df,
    files w !! filepath = Some d →
    parse_csv ";" ["?"] d = Some df →
    ∃ kw, init defaults w = StandardDataset_init df kw w ∧
          label_name kw = "readmitted " ∧
          label_name kw ≠ "readmitted".
Proof.
  split_and!; [done|done| |].
  - unfold defaults. cbn [categorical_features].
    apply list_elem_of_lookup. by exists 36.
  - intros w d df Hfile Hparse. eexists. split.
    + unfold DiabetesDataset_init, io_bind at 1, try_except_IOError.
      rewrite (read_csv_present _ _ _ d) by done.
      cbn [na_values defaults]. rewrite Hparse. reflexivity.
    + done.
Qed.

End Dataset.

Lemma init_missing_file_exits_witness :
  (DiabetesDataset_init Examples.legacy_parse_csv Examples.legacy_module_file
     Examples.abspath Examples.StandardDataset_init defaults
     Examples.legacy_world_empty).1 = Raise (SystemExit 1).
Proof.
  destruct (init_missing_file_exits Examples.legacy_parse_csv
              Examples.legacy_module_file Examples.abspath
              Examples.StandardDataset_init defaults Examples.legacy_world_empty)
    as [Hrun _]; [reflexivity|].
  by rewrite Hrun.
Defined.

Lemma default_label_name_trailing_space_witness :
  ∃ kw, DiabetesDataset_init Examples.legacy_parse_csv Examples.legacy_module_file
          Examples.abspath Examples.StandardDataset_init defaults
          Examples.legacy_world_ready =
        Examples.StandardDataset_init Examples.df_sample kw
          Examples.legacy_world_ready ∧
        label_name kw ≠ "readmitted".
Proof.
  destruct (default_label_name_trailing_space Examples.legacy_parse_csv
              Examples.legacy_module_file Examples.abspath
              Examples.StandardDataset_init) as (_ & _ & _ & Hcall).
  destruct (Hcall Examples.legacy_world_ready Examples.df_sample Examples.df_sample)
    as (kw & Hrun & _ & Hne); [reflexivity..|].
  eauto.
Defined.

End LegacyProps.

(** ** More on the normalizer *)

Module SklearnNormalizeMore.
Import Py Pandas Sklearn Spec Extra PandasFacts SklearnRemap SklearnDicts SklearnNormalize.

Lemma replace_value_comm d1 d2 v :
  independent d1 d2 →
  replace_value d2 (replace_value d1 v) = replace_value d1 (replace_value d2 v).
Proof.
  intros (Hkeys & H12 & H21). destruct v as [s|]; [|done]. simpl.
  destruct (d1 !! s) as [[x|]|] eqn:H1; destruct (d2 !! s) as [[y|]|] eqn:H2;
    simpl; rewrite ?H1, ?H2; try done;
    try (destruct (Hkeys s); congruence).
  - by rewrite (H12 s x H1).
  - by rewrite (H21 s y H2).
Qed.

Lemma replace_value_union d1 d2 v :
  (∀ s x, d1 !! s = Some (Some x) → d2 !! x = None) →
  replace_value d2 (replace_value d1 v) = replace_value (d1 ∪ d2) v.
Proof.
  intros H12. destruct v as [s|]; [|done]. simpl.
  rewrite lookup_union. destruct (d1 !! s) as [[x|]|] eqn:H1; simpl.
  - rewrite (H12 s x H1). by destruct (d2 !! s).
  - by destruct (d2 !! s).
  - by destruct (d2 !! s).
Qed.

Lemma null_map_lookup s v : null_map !! s = Some v ↔ s = "?" ∧ v = None.
Proof.
  unfold null_map. rewrite lookup_singleton_Some. split; intros [? ?]; by subst.
Qed.

(** The codes that the bucket dict writes. *)
Lemma age_map_value s x :
  age_map !! s = Some (Some x) →
  x ∈ ["1"; "2"; "3"; "4"; "5"; "6"; "7"; "8"; "9"; "10"].
Proof.
  intros (k & Hk & _ & [= ->])%age_map_lookup.
  assert (k ∈ seq 1 10) as Hin by (apply elem_of_seq; lia).
  cbv [seq] in Hin. rewrite !elem_of_cons, elem_of_nil in Hin.
  rewrite !elem_of_cons, elem_of_nil.
  destruct Hin as [->|[->|[->|[->|[->|[->|[->|[->|[->|[->|[]]]]]]]]]]];
    vm_compute; tauto.
Qed.

Lemma age_map_key s v :
  age_map !! s = Some v →
  s ∈ ["[0-10)"; "[10-20)"; "[20-30)"; "[30-40)"; "[40-50)"; "[50-60)";
       "[60-70)"; "[70-80)"; "[80-90)"; "[90-100)"].
Proof.
  intros (k & Hk & -> & _)%age_map_lookup.
  assert (k ∈ seq 1 10) as Hin by (apply elem_of_seq; lia).
  cbv [seq] in Hin. rewrite !elem_of_cons, elem_of_nil in Hin.
  rewrite !elem_of_cons, elem_of_nil.
  destruct Hin as [->|[->|[->|[->|[->|[->|[->|[->|[->|[->|[]]]]]]]]]]];
    vm_compute; tauto.
Qed.

Ltac each_string H :=
  rewrite ?elem_of_cons, ?elem_of_nil in H;
  repeat (destruct H as [->|H]); [..|destruct H].

Lemma target_null_independent : independent target_map null_map.
Proof.
  split_and!.
  - intros s. destruct (null_map !! s) as [v|] eqn:Hn; [|by right].
    apply null_map_lookup in Hn as [-> _]. by left.
  - intros s x Ht%target_map_lookup.
    rewrite !elem_of_cons, elem_of_nil in Ht.
    destruct Ht as [[= -> ->]|[[= -> ->]|[[= -> ->]|[]]]]; by vm_compute.
  - intros s x [_ [=]]%null_map_lookup.
Qed.

Lemma target_age_independent : independent target_map age_map.
Proof.
  split_and!.
  - intros s. destruct (age_map !! s) as [v|] eqn:Ha; [|by right].
    apply age_map_key in Ha. each_string Ha; left; by vm_compute.
  - intros s x Ht%target_map_lookup.
    rewrite !elem_of_cons, elem_of_nil in Ht.
    destruct Ht as [[= -> ->]|[[= -> ->]|[[= -> ->]|[]]]]; by vm_compute.
  - intros s x Ha%age_map_value. each_string Ha; by vm_compute.
Qed.

Lemma null_age_independent : independent null_map age_map.
Proof.
  split_and!.
  - intros s. destruct (null_map !! s) as [v|] eqn:Hn; [|by left].
    apply null_map_lookup in Hn as [-> _]. by right.
  - intros s x [_ [=]]%null_map_lookup.
  - intros s x Ha%age_map_value. each_string Ha; by vm_compute.
Qed.

Section More.
Context {num : Type}.
Implicit Types df : DataFrame num.

Lemma replace_replace_comm d1 d2 df :
  independent d1 d2 →
  replace d2 (replace d1 df) = replace d1 (replace d2 df).
Proof.
  intros Hind. unfold replace. simpl. f_equal.
  rewrite <- !list_fmap_compose. apply list_fmap_ext.
  intros _ [col [vs|vs]] _; simpl; [|done]. do 2 f_equal.
  rewrite <- !list_fmap_compose. apply list_fmap_ext.
  intros _ v _. simpl. by apply replace_value_comm.
Qed.

(** X1.  The three remaps do not interfere: any two of them may be
    swapped, so every order of the three calls gives the table that
    [fetch_diabetes] builds, and one call with the three dicts merged gives
    it too. *)
Theorem remap_order_irrelevant df :
  replace null_map (replace target_map df) = replace target_map (replace null_map df) ∧
  replace age_map (replace target_map df) = replace target_map (replace age_map df) ∧
  replace age_map (replace null_map df) = replace null_map (replace age_map df) ∧
  remap df = replace (target_map ∪ null_map ∪ age_map) df.
Proof.
  split_and!.
  - apply replace_replace_comm, target_null_independent.
  - apply replace_replace_comm, target_age_independent.
  - apply replace_replace_comm, null_age_independent.
  - unfold remap, replace. simpl. f_equal.
    rewrite <- !list_fmap_compose. apply list_fmap_ext.
    intros _ [col [vs|vs]] _; simpl; [|done]. do 2 f_equal.
    rewrite <- !list_fmap_compose. apply list_fmap_ext.
    intros _ v _. simpl.
    rewrite (replace_value_union target_map null_map)
      by apply target_null_independent.
    apply replace_value_union. intros s x Hs.
    apply lookup_union_Some_raw in Hs as [Ht|[_ Hn]].
    + by apply target_age_independent in Ht.
    + by apply null_age_independent in Hn.
Qed.

Lemma remap_value_idemp v : remap_value (remap_value v) = remap_value v.
Proof.
  destruct (remap_value v) as [x|] eqn:Hx; [|done].
  by apply remap_value_clean, replace_value_clean in Hx.
Qed.

(** X2.  Remapping a remapped table changes nothing: the codes that the
    remaps write are not themselves tokens of any remap. *)
Theorem remap_idempotent df : remap (remap df) = remap df.
Proof.
  destruct df as [ix cs].
  assert (columns (remap (remap {| index := ix; columns := cs |})) =
          columns (remap {| index := ix; columns := cs |})) as Hcols.
  { rewrite !remap_columns, <- list_fmap_compose. apply list_fmap_ext.
    intros _ [col [vs|vs]] _; simpl; [|done]. do 2 f_equal.
    rewrite <- list_fmap_compose. apply list_fmap_ext.
    intros _ v _. simpl. apply remap_value_idemp. }
  revert Hcols. unfold remap, replace. simpl. by intros ->.
Qed.

End More.
End SklearnNormalizeMore.

(** ** What the normalizer returns *)

Module SklearnOutput.
Import Py Pandas Sklearn Spec Extra PandasFacts SklearnRemap SklearnDicts SklearnNormalize.

Section Output.
Context {num : Type}.
Implicit Types df : DataFrame num.




(** X7.  The only exception normalization raises is the [KeyError] of
    [mode()[0]], and it raises it only if some object column has no entry
    other than NaN and the sentinel. *)
Theorem normalize_raises_only_KeyError df e :
  normalize df = Raise e →
  e = KeyError 0 ∧
  ∃ j col vs, columns df !! j = Some (col, ObjectSeries vs) ∧ ¬ has_value vs.
Proof.
  unfold normalize, fill_na.
  destruct (fill_columns (columns (remap df))) as [cs|e'] eqn:Hcs; [done|].
  intros [= ->]. apply fill_columns_raise in Hcs as (-> & col & vs' & Hin & Hobs).
  split; [done|].
  apply list_elem_of_lookup in Hin as [j Hj].
  apply remap_lookup_object_inv in Hj as (vs & Hj & ->).
  exists j, col, vs. split; [done|]. by apply observed_remap_nil.
Qed.

End Output.




Lemma normalize_raises_only_KeyError_witness :
  ∃ j col vs, columns Examples.df_header_only !! j = Some (col, ObjectSeries vs) ∧
              ¬ has_value vs.
Proof.
  apply (normalize_raises_only_KeyError Examples.df_header_only (KeyError 0)).
  reflexivity.
Defined.

End SklearnOutput.

(** ** Normalization with the dtypes that [replace] infers *)

Module SklearnDtypes.
Import Py Pandas Sklearn Spec Extra PandasFacts SklearnRemap SklearnDicts SklearnNormalize.

Section Dtypes.
Context {num : Type}.
Implicit Types df : DataFrame num.

Lemma fillna_fmap v (f : option string → option string) vs :
  fillna v (f <$> vs) = (fun c => Some (default v (f c))) <$> vs.
Proof.
  unfold fillna. rewrite <- list_fmap_compose. apply list_fmap_ext.
  intros _ c _. simpl. by destruct (f c).
Qed.

Lemma all_missing_replace d vs :
  Forall (fun c => c = None) vs → Forall (fun c => c = None) (replace_value d <$> vs).
Proof.
  intros Hall. apply Forall_fmap. eapply Forall_impl; [done|]. by intros c ->.
Qed.

(** Inferring the dtypes before a replacement as well as after it changes
    nothing: a column of NaN stays a column of NaN. *)
Lemma convert_series_replace d (s : Series num) :
  Typed.convert_series (Series_replace d (Typed.convert_series s)) =
  Typed.convert_series (Series_replace d s).
Proof.
  destruct s as [vs|vs]; [|done]. unfold Typed.convert_series at 2.
  destruct (decide (vs ≠ [] ∧ Forall (fun c => c = None) vs)) as [[Hne Hall]|Hno];
    [|done].
  simpl. rewrite decide_True; last first.
  { split; [|by apply all_missing_replace].
    intros Hnil. apply fmap_nil_inv in Hnil. done. }
  by rewrite <- list_fmap_compose.
Qed.

Lemma convert_replace d df :
  Typed.convert (replace d (Typed.convert df)) = Typed.convert (replace d df).
Proof.
  unfold Typed.convert, replace. simpl. f_equal.
  rewrite <- !list_fmap_compose. apply list_fmap_ext.
  intros _ [col s] _. simpl. f_equal. apply convert_series_replace.
Qed.

Lemma remap_convert df : Typed.remap df = Typed.convert (remap df).
Proof.
  unfold Typed.remap, Typed.replace, remap. cbv zeta.
  by rewrite (convert_replace null_map), (convert_replace age_map).
Qed.

Lemma all_missing_remap vs :
  Forall (fun c => c = None) (remap_value <$> vs) ↔ ¬ has_value vs.
Proof. by rewrite <- observed_nil, observed_remap_nil. Qed.

Lemma observed_has_value vs : observed (remap_value <$> vs) ≠ [] → has_value vs.
Proof.
  destruct (observed (remap_value <$> vs)) as [|x obs] eqn:Hobs; [done|]. intros _.
  assert (x ∈ observed (remap_value <$> vs)) as Hx by (rewrite Hobs; left).
  unfold observed in Hx. apply list_elem_of_omap in Hx as (c' & Hc' & Hx).
  simpl in Hx. subst c'. apply list_elem_of_fmap in Hc' as (c & Hc & Hin).
  destruct c as [s|]; [|done]. exists s. split; [done|].
  intros ->. by vm_compute in Hc.
Qed.

Lemma typed_remap_lookup df j col vs :
  columns df !! j = Some (col, ObjectSeries vs) →
  columns (Typed.remap df) !! j =
  Some (col, Typed.convert_series (ObjectSeries (remap_value <$> vs))).
Proof.
  intros Hj. rewrite remap_convert. unfold Typed.convert. cbn [columns].
  by rewrite list_lookup_fmap, (remap_lookup_object _ _ _ _ Hj).
Qed.

Lemma typed_remap_lookup_inv df j col vs' :
  columns (Typed.remap df) !! j = Some (col, ObjectSeries vs') →
  ∃ vs, columns df !! j = Some (col, ObjectSeries vs) ∧ vs' = remap_value <$> vs ∧
        ¬ (vs' ≠ [] ∧ Forall (fun c => c = None) vs').
Proof.
  rewrite remap_convert. unfold Typed.convert. cbn [columns].
  rewrite list_lookup_fmap.
  destruct (columns (remap df) !! j) as [[col' [vs0|vs0]]|] eqn:Hj; simpl; [|done..].
  destruct (decide (vs0 ≠ [] ∧ Forall (fun c => c = None) vs0)) as [|Hno]; [done|].
  intros [= <- <-]. apply remap_lookup_object_inv in Hj as (vs & Hj & ->). eauto.
Qed.

(** The column of the remapped table for an input object column that has
    rows and nothing to observe. *)
Lemma typed_remap_missing df j col vs :
  columns df !! j = Some (col, ObjectSeries vs) →
  vs ≠ [] → ¬ has_value vs →
  columns (Typed.remap df) !! j = Some (col, NumericSeries ((fun _ => None) <$> vs)).
Proof.
  intros Hj Hne Hno. rewrite (typed_remap_lookup _ _ _ _ Hj). simpl.
  rewrite decide_True; last first.
  { split; [|by apply all_missing_remap].
    intros Hnil. by apply fmap_nil_inv in Hnil. }
  by rewrite <- list_fmap_compose.
Qed.

Lemma fill_na_numeric df df' j col (vs : list (option num)) :
  fill_na df = Ok df' →
  columns df !! j = Some (col, NumericSeries vs) →
  columns df' !! j = Some (col, NumericSeries vs).
Proof.
  intros [_ Hcs]%fill_na_Ok Hj.
  destruct (Forall2_lookup_l _ _ _ _ _ Hcs Hj) as (c' & Hj' & Hc).
  simpl in Hc. by injection Hc as <-.
Qed.

(** The one failure: an object column without rows. *)
Lemma typed_normalize_raise df e :
  Typed.normalize df = Raise e ↔
  e = KeyError 0 ∧ ∃ j col, columns df !! j = Some (col, ObjectSeries []).
Proof.
  unfold Typed.normalize, fill_na. split.
  - destruct (fill_columns (columns (Typed.remap df))) as [cs|e'] eqn:Hcs; [done|].
    intros [= ->]. apply fill_columns_raise in Hcs as (-> & col & vs' & Hin & Hobs).
    split; [done|]. apply list_elem_of_lookup in Hin as [j Hj].
    apply typed_remap_lookup_inv in Hj as (vs & Hj & -> & Hno).
    exists j, col. apply observed_nil in Hobs.
    destruct vs as [|c vs]; [done|]. exfalso. apply Hno. by split.
  - intros (-> & j & col & Hj).
    assert (fill_columns (columns (Typed.remap df)) = Raise (KeyError 0)) as ->;
      [|done].
    apply fill_columns_raise. split; [done|]. exists col, [].
    split; [|done]. apply list_elem_of_lookup. exists j.
    by rewrite (typed_remap_lookup _ _ _ _ Hj).
Qed.

Lemma typed_normalize_total df :
  (∀ j col, columns df !! j ≠ Some (col, ObjectSeries [])) →
  ∃ df', Typed.normalize df = Ok df'.
Proof.
  intros Hrows. destruct (Typed.normalize df) as [df'|e] eqn:Hn; [eauto|].
  apply typed_normalize_raise in Hn as (_ & j & col & Hj). by destruct (Hrows j col).
Qed.

(** Where the normalizer on values returns, the dtypes play no part. *)
Lemma normalize_agree df df' : normalize df = Ok df' → Typed.normalize df = Ok df'.
Proof.
  intros Hn. unfold Typed.normalize. rewrite remap_convert.
  assert (Typed.convert (remap df) = remap df) as ->; [|done].
  destruct (remap df) as [ix cs] eqn:Hr. unfold Typed.convert. cbn [index columns].
  f_equal. apply list_eq. intros j. rewrite list_lookup_fmap.
  destruct (cs !! j) as [[col [vs|vs]]|] eqn:Hj; simpl; [|done..].
  rewrite decide_False; [done|]. intros [Hne Hall].
  unfold normalize in Hn. rewrite Hr in Hn.
  destruct (fill_na_object _ _ j col vs Hn Hj) as (v & Hv & _).
  apply getitem0_mode in Hv as [[Hin _] _].
  apply observed_nil in Hall. rewrite Hall in Hin. by apply not_elem_of_nil in Hin.
Qed.

Lemma typed_raise_normalize_raise df e :
  Typed.normalize df = Raise e → normalize df = Raise e.
Proof.
  intros (-> & j & col & Hj)%typed_normalize_raise.
  unfold normalize, fill_na.
  assert (fill_columns (columns (remap df)) = Raise (KeyError 0)) as ->; [|done].
  apply fill_columns_raise. split; [done|]. exists col, [].
  split; [|done]. apply list_elem_of_lookup. exists j.
  by rewrite (remap_lookup_object _ _ _ _ Hj).
Qed.

(** Claim C6, as amended.  For an object column of the input table that is
    entirely missing no value is imputed, and there is no
    [EmptyColumnError].  Without rows, normalization fails with the
    [KeyError] of [mode()[0]] on an empty result.  With rows, [replace]
    leaves the column a float64 column, the loop over the object columns
    does not visit it, and normalization, which returns when every other
    object column has an entry other than NaN and the sentinel, returns the
    column entirely missing. *)
Theorem normalize_entirely_missing df j col vs :
  columns df !! j = Some (col, ObjectSeries vs) →
  Forall (fun c => c = None) vs →
  (vs = [] → Typed.normalize df = Raise (KeyError 0)) ∧
  (vs ≠ [] →
     ((∀ j' col' vs', j' ≠ j →
         columns df !! j' = Some (col', ObjectSeries vs') → has_value vs') →
      ∃ df', Typed.normalize df = Ok df') ∧
     (∀ df', Typed.normalize df = Ok df' →
        columns df' !! j = Some (col, NumericSeries ((fun _ => None) <$> vs)))) ∧
  ¬ raises "EmptyColumnError" (Typed.normalize df).
Proof.
  intros Hj Hall.
  assert (¬ has_value vs) as Hno.
  { intros (s & Hin & _). rewrite Forall_forall in Hall. by apply Hall in Hin. }
  split_and!.
  - intros ->. apply typed_normalize_raise. split; [done|]. eauto.
  - intros Hne. split.
    + intros Hothers. apply typed_normalize_total. intros j' col' Hj'.
      destruct (decide (j' = j)) as [->|Hjj].
      * rewrite Hj in Hj'. by injection Hj' as _ ->.
      * destruct (Hothers j' col' [] Hjj Hj') as (s & Hin & _).
        by apply not_elem_of_nil in Hin.
    + intros df' Hn. unfold Typed.normalize in Hn.
      eapply fill_na_numeric; [done|]. by apply typed_remap_missing.
  - intros (e & He & Hcls). apply typed_normalize_raise in He as (-> & _).
    discriminate Hcls.
Qed.

(** X3.  Whenever normalization returns, every object column of the input
    comes back in one of two ways.  If it has an entry other than NaN and
    the sentinel, it comes back an object column, entry by entry: an entry
    that the remaps leave observed is its remapped value, and an entry that
    is missing or the sentinel is the column's fill value, the least of the
    most frequent remapped values of that same column.  Otherwise it has
    rows and comes back a float64 column that is entirely missing. *)
Theorem normalize_object_column df df' j col vs :
  Typed.normalize df = Ok df' →
  columns df !! j = Some (col, ObjectSeries vs) →
  (has_value vs ∧
   ∃ v, most_frequent v (remap_value <$> vs) ∧
        (∀ x, most_frequent x (remap_value <$> vs) → str_le v x) ∧
        columns df' !! j =
        Some (col, ObjectSeries ((fun c => Some (default v (remap_value c))) <$> vs))) ∨
  (¬ has_value vs ∧ vs ≠ [] ∧
   columns df' !! j = Some (col, NumericSeries ((fun _ => None) <$> vs))).
Proof.
  intros Hn Hj. pose proof (typed_remap_lookup _ _ _ _ Hj) as Hr.
  unfold Typed.normalize in Hn. simpl in Hr.
  destruct (decide (remap_value <$> vs ≠ [] ∧
                    Forall (fun c => c = None) (remap_value <$> vs)))
    as [[Hne Hall]|Hobj].
  - right. apply all_missing_remap in Hall.
    assert (vs ≠ []) as Hne' by (by intros ->).
    split_and!; [done..|].
    eapply fill_na_numeric; [done|]. by apply typed_remap_missing.
  - left. destruct (fill_na_object _ _ _ _ _ Hn Hr) as (v & Hv & Hj').
    apply getitem0_mode in Hv as [Hmost Hleast].
    split.
    + apply observed_has_value. destruct Hmost as [Hin _].
      intros Hnil. rewrite Hnil in Hin. by apply not_elem_of_nil in Hin.
    + exists v. split_and!; [done..|]. by rewrite <- fillna_fmap.
Qed.

End Dtypes.

Lemma normalize_entirely_missing_witness :
  Typed.normalize Examples.df_header_only = Raise (KeyError 0) ∧
  ∃ df', Typed.normalize Examples.df_all_missing = Ok df' ∧
         columns df' !! 1 = Some ("weight", NumericSeries [None; None]).
Proof.
  destruct (normalize_entirely_missing Examples.df_header_only 0 "race" [])
    as (Hraise & _ & _); [reflexivity|constructor|].
  destruct (normalize_entirely_missing Examples.df_all_missing 1 "weight"
              [None; None]) as (_ & Hrows & _);
    [reflexivity|repeat constructor|].
  destruct Hrows as [Hreturns Hcolumn]; [done|].
  split; [by apply Hraise|].
  destruct Hreturns as [df' Hdf'].
  { intros [|[|j']] col' vs' Hjj; simpl; try done. intros [= <- <-].
    exists "Female". split; [left|done]. }
  exists df'. split; [done|]. by apply Hcolumn.
Defined.

(** Claim C6 as stated fails: on a table without rows the failure is not an
    [EmptyColumnError]. *)
Lemma normalize_header_only_not_EmptyColumnError :
  ¬ raises "EmptyColumnError" (Typed.normalize Examples.df_header_only).
Proof.
  intros (e & He & Hcls). vm_compute in He. injection He as <-.
  discriminate Hcls.
Qed.

(** Claim C6 as stated fails on a table with rows too: normalization does
    not fail at all. *)
Lemma normalize_all_missing_returns :
  ¬ ∃ e, Typed.normalize Examples.df_all_missing = Raise e.
Proof. intros [e He]. vm_compute in He. discriminate He. Qed.

Lemma normalize_object_column_witness :
  ∃ df' v, Typed.normalize Examples.df_sample = Ok df' ∧
           most_frequent v
             (remap_value <$> [Some "Caucasian"; Some "AfricanAmerican"; Some "?"]) ∧
           columns df' !! 0 =
           Some ("race", ObjectSeries
                   ((fun c => Some (default v (remap_value c)))
                      <$> [Some "Caucasian"; Some "AfricanAmerican"; Some "?"])).
Proof.
  eexists.
  destruct (normalize_object_column Examples.df_sample _ 0 "race"
              [Some "Caucasian"; Some "AfricanAmerican"; Some "?"]
              eq_refl eq_refl) as [(_ & v & Hv & _ & Hcol)|(Hno & _)].
  - exists v. split_and!; [reflexivity|exact Hv|exact Hcol].
  - exfalso. apply Hno. exists "Caucasian". split; [left|done].
Defined.

End SklearnDtypes.

(** ** More on paths *)

Module PosixpathMore.
Import Posixpath PosixpathFacts.

Lemma substring_all y : String.substring 0 (String.length y) y = y.
Proof. induction y as [|c y IH]; [done|]. simpl. by rewrite IH. Qed.

Lemma drop_app x y : drop (String.length x) (x +:+ y) = y.
Proof.
  unfold drop. rewrite string_app_length.
  replace (String.length x + String.length y - String.length x)%nat
    with (String.length y) by lia.
  induction x as [|c x IH].
  - rewrite string_app_nil_l. apply substring_all.
  - rewrite string_app_cons. simpl. apply IH.
Qed.

Lemma rfind_succ_endswith x :
  endswith_sep x = true → rfind_succ x = String.length x.
Proof.
  induction x as [|c x IH]; [done|]. destruct x as [|c' x].
  - simpl. by intros ->.
  - intros Hend. change (endswith_sep (String c' x) = true) in Hend.
    specialize (IH Hend). cbn [rfind_succ String.length] in *.
    by rewrite IH.
Qed.

Lemma endswith_sep_snoc h : endswith_sep (h +:+ "/") = true.
Proof.
  induction h as [|c h IH]; [done|]. rewrite string_app_cons.
  destruct h as [|c' h]; [done|].
  rewrite string_app_cons in *. exact IH.
Qed.

Lemma join_file_prefix home base :
  startswith_sep base = false →
  ∃ x, join home [base] = x +:+ base ∧ (x = "" ∨ endswith_sep x = true).
Proof.
  intros Hstart. unfold join. simpl. unfold join2. rewrite Hstart.
  destruct (String.eqb home "") eqn:Hempty; simpl.
  - apply String.eqb_eq in Hempty as ->. exists "". by split; [|left].
  - destruct (endswith_sep home) eqn:Hend.
    + exists home. by split; [|right].
    + exists (home +:+ "/"). split; [by rewrite string_app_assoc|].
      right. apply endswith_sep_snoc.
Qed.

(** The last segment of a file name joined to a directory is the file
    name. *)
Lemma basename_join home base :
  startswith_sep base = false → rfind_succ base = 0%nat →
  basename (join home [base]) = base.
Proof.
  intros Hstart Hbase.
  destruct (join_file_prefix home base Hstart) as (x & -> & Hx).
  unfold basename. rewrite rfind_succ_app, Hbase.
  destruct Hx as [->|Hend].
  - apply (drop_app "").
  - rewrite rfind_succ_endswith by done. apply drop_app.
Qed.

End PosixpathMore.

(** ** More on the fetch step and on [fetch_diabetes] as a whole *)

Module SklearnPipeline.
Import Py Posixpath Pandas Sklearn Extra PosixpathFacts PosixpathMore SklearnFetch SklearnDtypes.

Section Pipeline.
Context {num doc dataset : Type}.
Context (parse_csv : doc → option (DataFrame num)).
Context (render_csv : DataFrame num → doc).
Context (module_file : string).
Context (standardize_dataset :
  DataFrame num → standardize_kwargs → result dataset).

Local Abbreviation fetch := (fetch_frame parse_csv render_csv module_file).
Local Abbreviation path := (cache_path module_file).
Local Abbreviation fetch_diabetes :=
  (Sklearn.fetch_diabetes parse_csv render_csv module_file standardize_dataset).

(** X8.  Whatever [data_home] is, the cache file bears the name of the
    last segment of the URL; an empty [data_home] means the default
    directory, as [None] does. *)
Theorem cache_path_basename data_home :
  basename (path data_home) = basename DIABETES_URL ∧
  path (Some "") = path None.
Proof.
  split; [|done]. unfold cache_path. rewrite basename_DIABETES_URL.
  by apply basename_join.
Qed.

Lemma footprint_trans p (w1 w2 w3 : world (doc:=doc)) :
  footprint p w1 w2 → footprint p w2 w3 → footprint p w1 w3.
Proof.
  intros (Hr1 & Hf1 & Hd1 & evs1 & Ht1) (Hr2 & Hf2 & Hd2 & evs2 & Ht2).
  split_and!.
  - congruence.
  - intros q Hq. by rewrite Hf2, Hf1.
  - intros q Hq. by apply Hd2, Hd1.
  - exists (evs1 ++ evs2)%list. by rewrite Ht2, Ht1, app_assoc.
Qed.

Lemma footprint_logged p evs (w : world (doc:=doc)) : footprint p w (logged evs w).
Proof. split_and!; [done|done|done|by exists evs]. Qed.

Lemma makedirs_footprint p d ok (w w' : world (doc:=doc)) r :
  makedirs d ok w = (r, w') → footprint p w w'.
Proof.
  unfold makedirs.
  destruct (decide (d ∈ dirs w)); [|destruct (decide (is_Some (files w !! d)))];
    intros [= <- <-]; try apply (footprint_logged p [EvMakedirs d ok]).
  split_and!; cbn [files dirs remote trace log]; [done|done| |by eexists].
  intros q Hq. by apply elem_of_union_r.
Qed.

Lemma to_csv_footprint p df (w w' : world (doc:=doc)) r :
  to_csv render_csv df p w = (r, w') → footprint p w w'.
Proof.
  unfold to_csv. destruct (decide _); intros [= <- <-].
  - apply (footprint_logged p [EvToCsv p]).
  - split_and!; cbn [files dirs remote trace log]; [done| |done|by eexists].
    intros q Hq. by rewrite lookup_insert_ne.
Qed.

Lemma io_bind_inv {A B} (m : io A) (k : A → io B) (w w' : world (doc:=doc)) r :
  io_bind m k w = (r, w') →
  (∃ e, m w = (Raise e, w') ∧ r = Raise e) ∨
  (∃ a w1, m w = (Ok a, w1) ∧ k a w1 = (r, w')).
Proof.
  unfold io_bind. destruct (m w) as [[a|e] w1].
  - intros Hk. right. eauto.
  - intros [= <- <-]. left. eauto.
Qed.

(** X9.  The footprint of the fetch step, whatever the arguments and the
    outcome: what the URLs serve is not changed, no file other than the
    cache file is changed, no directory is removed, and the effects so far
    stay on record.  A cache file that is there is not rewritten, and with
    [cache] unset neither files nor directories change. *)
Theorem fetch_frame_footprint data_home cache w r w' :
  fetch data_home cache w = (r, w') →
  footprint (path data_home) w w' ∧
  (is_Some (files w !! path data_home) → files w' = files w) ∧
  (cache = false → files w' = files w ∧ dirs w' = dirs w).
Proof.
  destruct cache.
  - destruct (files w !! path data_home) as [d|] eqn:Hfile.
    + rewrite fetch_hit by (by rewrite Hfile). intros [= <- <-].
      split_and!; [apply footprint_logged|done|done].
    + destruct (read_doc parse_csv DIABETES_URL (remote w !! DIABETES_URL))
        as [df|e] eqn:Hread.
      * unfold fetch_frame. cbv zeta.
        erewrite io_bind_Ok by apply isfile_run.
        rewrite bool_decide_false by (rewrite Hfile; by intros [? ?]).
        erewrite io_bind_Ok; last first.
        { rewrite read_csv_url_run, logged_logged.
          cbn [files dirs remote trace logged]. by rewrite Hread. }
        intros Hrun. split_and!; [|by intros [? ?]|done].
        eapply footprint_trans; [apply footprint_logged|].
        apply io_bind_inv in Hrun as [(e & Hrun & _)|(a & w1 & Hrun & [= _ <-])];
          apply io_bind_inv in Hrun
            as [(e' & Hmk & _)|(a' & w2 & Hmk & Hcsv)].
        -- by eapply makedirs_footprint.
        -- eapply footprint_trans; [by eapply makedirs_footprint|].
           by eapply to_csv_footprint.
        -- by eapply makedirs_footprint.
        -- eapply footprint_trans; [by eapply makedirs_footprint|].
           by eapply to_csv_footprint.
      * rewrite (fetch_miss_unreachable _ _ _ _ _ e) by done. intros [= <- <-].
        split_and!; [apply footprint_logged|done|done].
  - rewrite fetch_no_cache. intros [= <- <-].
    split_and!; [apply footprint_logged|done|done].
Qed.

(** X10.  The cache round trip: when what [to_csv] writes reads back as
    the table, a fetch that filled the cache is followed by a fetch that
    returns the same table from the cache file, with no request to the
    URL. *)
Theorem fetch_frame_cache_round_trip data_home w w1 df :
  parse_csv (render_csv df) = Some df →
  files w !! path data_home = None →
  fetch data_home true w = (Ok df, w1) →
  fetch data_home true w1 =
  (Ok df, logged [EvIsfile (path data_home); EvReadFile (path data_home)] w1).
Proof.
  intros Hparse Hfile Hrun.
  rewrite (fetch_twice _ _ _ _ _ _ df Hfile Hrun).
  unfold read_doc. by rewrite Hparse.
Qed.

(** X11.  A cache file that does not parse makes [fetch_diabetes] fail
    with the parser's error: the URL is not tried as a fallback, and
    nothing is written. *)
Theorem fetch_diabetes_corrupt_cache data_home usecols dropcols numeric_only dropna w d :
  files w !! path data_home = Some d →
  parse_csv d = None →
  fetch_diabetes data_home true usecols dropcols numeric_only dropna w =
  (Raise (ValueError (path data_home)),
   logged [EvIsfile (path data_home); EvReadFile (path data_home)] w).
Proof.
  intros Hfile Hparse. unfold Sklearn.fetch_diabetes.
  erewrite io_bind_Raise; [reflexivity|].
  rewrite fetch_hit by (by rewrite Hfile).
  unfold read_doc. by rewrite Hfile, Hparse.
Qed.

(** X12.  When the directory of the cache file is taken by a regular
    file, a fetch with [cache] set fails after the table has been read from
    the URL: the table is lost to the caller and nothing is written. *)
Theorem fetch_frame_cache_dir_blocked data_home w df :
  files w !! path data_home = None →
  read_doc parse_csv DIABETES_URL (remote w !! DIABETES_URL) = Ok df →
  is_Some (files w !! dirname (path data_home)) →
  dirname (path data_home) ∉ dirs w →
  fetch data_home true w =
  (Raise (OSError (dirname (path data_home))),
   logged [EvIsfile (path data_home); EvHttpGet DIABETES_URL;
           EvMakedirs (dirname (path data_home)) true] w).
Proof.
  intros Hfile Hread Hblock Hnodir. unfold fetch_frame. cbv zeta.
  erewrite io_bind_Ok by apply isfile_run.
  rewrite bool_decide_false by (rewrite Hfile; by intros [? ?]).
  erewrite io_bind_Ok; last first.
  { rewrite read_csv_url_run, logged_logged.
    cbn [files dirs remote trace logged]. by rewrite Hread. }
  erewrite io_bind_Raise; [reflexivity|].
  erewrite io_bind_Raise; [reflexivity|].
  unfold makedirs. cbn [files dirs remote trace logged].
  rewrite decide_False by done. rewrite decide_True by done.
  unfold log, logged. cbn [files dirs remote trace].
  by rewrite <- app_assoc.
Qed.

Lemma fetch_miss_files data_home w w1 df :
  files w !! path data_home = None →
  fetch data_home true w = (Ok df, w1) →
  files w1 !! path data_home = Some (render_csv df).
Proof.
  intros Hfile. unfold fetch_frame. cbv zeta.
  erewrite io_bind_Ok by apply isfile_run.
  rewrite bool_decide_false by (rewrite Hfile; by intros [? ?]).
  unfold io_bind at 1.
  destruct (read_csv_url _ _ _) as [[df0|e] w0]; [|done].
  unfold io_bind at 1. unfold io_bind.
  destruct (makedirs _ _ _) as [[[]|e] w2]; [|done].
  unfold to_csv. destruct (decide _); [done|].
  unfold io_ret. intros [= <- <-]. cbn [files]. by rewrite lookup_insert_eq.
Qed.

(** X13.  The cache is filled before the table is normalized: when the
    fetch step on an empty cache has returned a table and normalization
    fails on that table, [fetch_diabetes] fails with the error of
    normalization, in the world the fetch step left, where the table is in
    the cache file. *)
Theorem fetch_diabetes_caches_before_normalizing
    data_home usecols dropcols numeric_only dropna w w1 df e :
  files w !! path data_home = None →
  fetch data_home true w = (Ok df, w1) →
  Typed.normalize df = Raise e →
  fetch_diabetes data_home true usecols dropcols numeric_only dropna w =
  (Raise e, w1) ∧
  files w1 !! path data_home = Some (render_csv df).
Proof.
  intros Hfile Hrun Hnorm. split; [|by eapply fetch_miss_files].
  unfold Sklearn.fetch_diabetes.
  erewrite io_bind_Ok by done.
  erewrite io_bind_Raise; [reflexivity|].
  unfold lift. by rewrite (typed_raise_normalize_raise _ _ Hnorm).
Qed.


End Pipeline.

Local Abbreviation run_fetch :=
  (fetch_frame Examples.parse_csv Examples.render_csv Examples.module_file
     (Some "/tmp/aif360")).

Lemma fetch_frame_footprint_witness :
  footprint "/tmp/aif360/diabetic_data.csv" Examples.world_online world_filled.
Proof.
  apply (fetch_frame_footprint Examples.parse_csv Examples.render_csv
           Examples.module_file (Some "/tmp/aif360") true Examples.world_online
           (Ok Examples.df_sample)).
  rewrite (fetch_miss_persist Examples.parse_csv Examples.render_csv
             Examples.module_file (Some "/tmp/aif360") Examples.world_online
             Examples.df_sample); try reflexivity.
  vm_compute. intros Hin. discriminate Hin.
Defined.

Lemma fetch_frame_cache_round_trip_witness :
  run_fetch true world_filled =
  (Ok Examples.df_sample,
   logged [EvIsfile "/tmp/aif360/diabetic_data.csv";
           EvReadFile "/tmp/aif360/diabetic_data.csv"] world_filled).
Proof.
  apply (fetch_frame_cache_round_trip Examples.parse_csv Examples.render_csv
           Examples.module_file (Some "/tmp/aif360") Examples.world_online).
  - reflexivity.
  - reflexivity.
  - rewrite (fetch_miss_persist Examples.parse_csv Examples.render_csv
               Examples.module_file (Some "/tmp/aif360") Examples.world_online
               Examples.df_sample); try reflexivity.
    vm_compute. intros Hin. discriminate Hin.
Defined.

Lemma fetch_diabetes_corrupt_cache_witness :
  (fetch_diabetes parse_rows Examples.render_csv Examples.module_file
     standardize_dataset (Some "/tmp/aif360") true usecols_default dropcols_default
     false true world_corrupt).1 =
  Raise (ValueError "/tmp/aif360/diabetic_data.csv").
Proof.
  rewrite (fetch_diabetes_corrupt_cache parse_rows Examples.render_csv
             Examples.module_file standardize_dataset (Some "/tmp/aif360")
             usecols_default dropcols_default false true world_corrupt
             Examples.df_header_only); reflexivity.
Defined.

Lemma fetch_frame_cache_dir_blocked_witness :
  (run_fetch true world_blocked).1 = Raise (OSError "/tmp/aif360").
Proof.
  rewrite (fetch_frame_cache_dir_blocked Examples.parse_csv Examples.render_csv
             Examples.module_file (Some "/tmp/aif360") world_blocked
             Examples.df_sample); try reflexivity.
  - by eexists.
  - vm_compute. intros Hin. discriminate Hin.
Defined.

Lemma fetch_diabetes_caches_before_normalizing_witness :
  ∃ w1, fetch_diabetes Examples.parse_csv Examples.render_csv Examples.module_file
          standardize_dataset (Some "/tmp/aif360") true usecols_default
          dropcols_default false true world_no_rows =
        (Raise (KeyError 0), w1) ∧
        files w1 !! "/tmp/aif360/diabetic_data.csv" = Some Examples.df_header_only.
Proof.
  eexists.
  apply (fetch_diabetes_caches_before_normalizing Examples.parse_csv
           Examples.render_csv Examples.module_file standardize_dataset
           (Some "/tmp/aif360") usecols_default dropcols_default false true
           world_no_rows _ Examples.df_header_only (KeyError 0)).
  - reflexivity.
  - rewrite (fetch_miss_persist Examples.parse_csv Examples.render_csv
               Examples.module_file (Some "/tmp/aif360") world_no_rows
               Examples.df_header_only); try reflexivity.
    vm_compute. intros Hin. discriminate Hin.
  - reflexivity.
Defined.


End SklearnPipeline.

(** ** More on the legacy [DiabetesDataset] *)

Module LegacyMore.
Import Py Posixpath Pandas Legacy Extra LegacyProps.

Section Dataset.
Context {num doc base : Type}.
Context (parse_csv : string → list string → doc → option (DataFrame num)).
Context (module_file : string) (abspath : string → string).
Context (StandardDataset_init :
  DataFrame num → init_kwargs (num:=num) → io (doc:=doc) base).

Local Abbreviation init :=
  (DiabetesDataset_init parse_csv module_file abspath StandardDataset_init).
Local Abbreviation filepath := (filepath module_file abspath).

(** X15.  Only an [IOError] ends the program.  When the data file is
    there and does not parse, the parser's error goes to the caller as an
    exception it can catch: nothing is printed and there is no exit. *)
Theorem init_parser_error_propagates kw (w : world (doc:=doc)) d :
  files w !! filepath = Some d →
  parse_csv ";" (na_values kw) d = None →
  init kw w = (Raise (ValueError filepath), w) ∧
  is_Exception (ValueError filepath) = true ∧
  is_IOError (ValueError filepath) = false.
Proof.
  intros Hfile Hparse. split; [|done].
  unfold DiabetesDataset_init, io_bind at 1, try_except_IOError.
  rewrite (read_csv_present _ _ _ _ _ _ d) by done. by rewrite Hparse.
Qed.

(** X16.  When the data file is there and parses (with [;] as separator
    and the caller's [na_values]), nothing is printed before the base class
    takes over, and the base class gets the parsed table and each of the
    eleven arguments as the caller gave it. *)
Theorem init_passes_arguments kw (w : world (doc:=doc)) d df :
  files w !! filepath = Some d →
  parse_csv ";" (na_values kw) d = Some df →
  init kw w = StandardDataset_init df kw w.
Proof.
  intros Hfile Hparse.
  unfold DiabetesDataset_init, io_bind at 1, try_except_IOError.
  rewrite (read_csv_present _ _ _ _ _ _ d) by done. rewrite Hparse.
  by destruct kw.
Qed.

End Dataset.

Lemma init_parser_error_propagates_witness :
  (DiabetesDataset_init legacy_parse_none Examples.legacy_module_file
     Examples.abspath Examples.StandardDataset_init defaults
     Examples.legacy_world_ready).1 =
  Raise (ValueError "/opt/aif360/datasets/../data/raw/diabetes/diabetic_data.csv").
Proof.
  destruct (init_parser_error_propagates legacy_parse_none
              Examples.legacy_module_file Examples.abspath
              Examples.StandardDataset_init defaults Examples.legacy_world_ready
              Examples.df_sample) as [Hrun _]; [reflexivity..|].
  by rewrite Hrun.
Defined.

Lemma init_passes_arguments_witness :
  (DiabetesDataset_init Examples.legacy_parse_csv Examples.legacy_module_file
     Examples.abspath Examples.StandardDataset_init defaults
     Examples.legacy_world_ready).1 = Ok "readmitted ".
Proof.
  rewrite (init_passes_arguments Examples.legacy_parse_csv
             Examples.legacy_module_file Examples.abspath
             Examples.StandardDataset_init defaults Examples.legacy_world_ready
             Examples.df_sample Examples.df_sample); reflexivity.
Defined.

End LegacyMore.
